(** * QuestTracker: a shallow embedding of [contracts/QuestTracker.sol]

    The contract is embedded as functions in a small state-and-failure
    monad over an explicit contract storage record.  Solidity [uint256]
    and [address] values are integers ([Z]); arithmetic is the checked
    arithmetic of Solidity 0.8 (overflow and underflow raise
    [Panic(0x11)], an out-of-range array index raises [Panic(0x32)]).
    Storage mappings are finite maps read with a zero default. *)

From Stdlib Require Import ZArith Lia Bool List String Sorted.
From stdpp Require Import gmap strings list.

Local Open Scope string_scope.
Local Open Scope list_scope.
Local Open Scope Z_scope.

(** ** Machine values *)

Abbreviation uint256 := Z (only parsing).
Abbreviation address := Z (only parsing).

Definition MAX_UINT256 : Z := 2 ^ 256 - 1.
Definition MAX_ADDRESS : Z := 2 ^ 160 - 1.

Definition is_uint256 (n : Z) : Prop := 0 <= n <= MAX_UINT256.
Definition is_address (a : Z) : Prop := 0 <= a <= MAX_ADDRESS.

(** [1 hours] in Solidity's time units. *)
Definition one_hours : Z := 3600.

(** ** Failures *)

Inductive failure : Type :=
| Revert (reason : string)
| Panic (code : Z).

Inductive result (A : Type) : Type :=
| Ok (a : A)
| Err (f : failure).
Arguments Ok {A} a.
Arguments Err {A} f.

Definition PANIC_ARITHMETIC : Z := 17.   (* 0x11 *)
Definition PANIC_INDEX : Z := 50.        (* 0x32 *)

(** The error kinds of the ledger's boundary, and the kind each [require]
    message of the contract stands for. *)
Inductive ErrorKind : Type :=
| Unauthorized | NotFound | QuestUnavailable | InvalidUser
| InvalidQuest | InvalidSchedule | AlreadyCompleted | CooldownActive.

Definition error_kind (f : failure) : option ErrorKind :=
  match f with
  | Panic _ => None
  | Revert msg =>
      if String.eqb msg "Only owner can call this function" then Some Unauthorized
      else if String.eqb msg "Only backend wallet can call this function" then Some Unauthorized
      else if String.eqb msg "Only owner or backend can complete quests" then Some Unauthorized
      else if String.eqb msg "Only owner or backend can set daily claimed" then Some Unauthorized
      else if String.eqb msg "Quest does not exist" then Some NotFound
      else if String.eqb msg "Quest is not active" then Some QuestUnavailable
      else if String.eqb msg "Quest has expired" then Some QuestUnavailable
      else if String.eqb msg "Invalid user address" then Some InvalidUser
      else if String.eqb msg "Quest must have at least one requirement" then Some InvalidQuest
      else if String.eqb msg "End date must be in the future" then Some InvalidSchedule
      else if String.eqb msg "Quest already completed" then Some AlreadyCompleted
      else if String.eqb msg "Daily claim cooldown not met" then Some CooldownActive
      else None
  end.

(** ** Structs *)

Module Quest.
Record t : Type := mk {
  id : uint256;
  title : string;
  description : string;
  reward : uint256;
  requirements : list string;
  estimatedTimeMinutes : uint256;
  isActive : bool;
  createdAt : uint256;
  endDate : uint256
}.
Definition zero : t := mk 0 "" "" 0 [] 0 false 0 0.
End Quest.

Module UserProgress.
Record t : Type := mk {
  completed : bool;
  completedAt : uint256
}.
Definition zero : t := mk false 0.
End UserProgress.

Module DailyClaim.
Record t : Type := mk {
  lastClaimTime : uint256;
  claimed : bool
}.
Definition zero : t := mk 0 false.
End DailyClaim.

Module UserDetails.
Record t : Type := mk {
  completedQuestIds : list uint256;
  totalQuestsCompleted : uint256;
  dailyClaimInfo : DailyClaim.t;
  canClaimDaily : bool;
  timeUntilNextClaim : uint256
}.
End UserDetails.

(** A storage slot that was never written reads as the zero value. *)
#[global] Instance Quest_inhabited : Inhabited Quest.t := populate Quest.zero.
#[global] Instance UserProgress_inhabited : Inhabited UserProgress.t :=
  populate UserProgress.zero.
#[global] Instance DailyClaim_inhabited : Inhabited DailyClaim.t :=
  populate DailyClaim.zero.
#[global] Instance uint256_inhabited : Inhabited Z := populate 0.

(** ** Events *)

Inductive Event : Type :=
| QuestCreated (questId : uint256) (title : string) (reward endDate : uint256)
| QuestCompleted (user : address) (questId : uint256)
| DailyClaimed (user : address) (amount : uint256).

(** ** Contract storage and transaction context *)

Record State : Type := mkState {
  owner : address;
  backendWallet : address;
  questCounter : uint256;
  quests : gmap Z Quest.t;
  userQuests : gmap Z (gmap Z UserProgress.t);
  totalQuestsCompleted : gmap Z Z;
  dailyClaims : gmap Z DailyClaim.t;
  dailyRewardAmount : uint256;
  claimCooldown : uint256;
  (** the event log, oldest event first *)
  events : list Event
}.

Record Env : Type := mkEnv {
  msg_sender : address;
  block_timestamp : uint256
}.

Definition set_questCounter (v : uint256) (s : State) : State :=
  mkState (owner s) (backendWallet s) v (quests s) (userQuests s)
          (totalQuestsCompleted s) (dailyClaims s) (dailyRewardAmount s)
          (claimCooldown s) (events s).

Definition set_quests (v : gmap Z Quest.t) (s : State) : State :=
  mkState (owner s) (backendWallet s) (questCounter s) v (userQuests s)
          (totalQuestsCompleted s) (dailyClaims s) (dailyRewardAmount s)
          (claimCooldown s) (events s).

Definition set_userQuests (v : gmap Z (gmap Z UserProgress.t)) (s : State) : State :=
  mkState (owner s) (backendWallet s) (questCounter s) (quests s) v
          (totalQuestsCompleted s) (dailyClaims s) (dailyRewardAmount s)
          (claimCooldown s) (events s).

Definition set_totalQuestsCompleted (v : gmap Z Z) (s : State) : State :=
  mkState (owner s) (backendWallet s) (questCounter s) (quests s) (userQuests s)
          v (dailyClaims s) (dailyRewardAmount s)
          (claimCooldown s) (events s).

Definition set_dailyClaims (v : gmap Z DailyClaim.t) (s : State) : State :=
  mkState (owner s) (backendWallet s) (questCounter s) (quests s) (userQuests s)
          (totalQuestsCompleted s) v (dailyRewardAmount s)
          (claimCooldown s) (events s).

Definition set_events (v : list Event) (s : State) : State :=
  mkState (owner s) (backendWallet s) (questCounter s) (quests s) (userQuests s)
          (totalQuestsCompleted s) (dailyClaims s) (dailyRewardAmount s)
          (claimCooldown s) v.

(** ** The contract monad: storage threaded through, failure aborts *)

Definition M (A : Type) : Type := State -> result (A * State).

#[global] Instance M_ret : MRet M := fun A a s => Ok (a, s).
#[global] Instance M_bind : MBind M := fun A B f m s =>
  match m s with
  | Ok (a, s') => f a s'
  | Err e => Err e
  end.

Definition fail {A} (f : failure) : M A := fun _ => Err f.
Definition gets {A} (f : State -> A) : M A := fun s => Ok (f s, s).
Definition modify (f : State -> State) : M unit := fun s => Ok (tt, f s).

Definition require (cond : bool) (msg : string) : M unit :=
  if cond then mret tt else fail (Revert msg).

Definition checked_add (a b : uint256) : M uint256 :=
  if a + b <=? MAX_UINT256 then mret (a + b) else fail (Panic PANIC_ARITHMETIC).

Definition checked_sub (a b : uint256) : M uint256 :=
  if b <=? a then mret (a - b) else fail (Panic PANIC_ARITHMETIC).

Definition emit (ev : Event) : M unit :=
  modify (fun s => set_events (events s ++ [ev]) s).

(** [new uint256[](n)] and [a[i] = v] on a memory array. *)
Definition new_array (n : uint256) : list uint256 := replicate (Z.to_nat n) 0.

Definition array_store (a : list uint256) (i v : uint256) : M (list uint256) :=
  if i <? Z.of_nat (length a) then mret (<[Z.to_nat i := v]> a)
  else fail (Panic PANIC_INDEX).

(** ** Modifiers *)

Definition onlyOwner (e : Env) : M unit :=
  o ← gets owner;
  require (msg_sender e =? o) "Only owner can call this function".

Definition onlyBackend (e : Env) : M unit :=
  b ← gets backendWallet;
  require (msg_sender e =? b) "Only backend wallet can call this function".

Definition questExists (_questId : uint256) : M unit :=
  c ← gets questCounter;
  require ((0 <? _questId) && (_questId <=? c)) "Quest does not exist".

Definition questIsActive (e : Env) (_questId : uint256) : M unit :=
  q ← gets (fun s => quests s !!! _questId);
  require (Quest.isActive q) "Quest is not active" ;;
  require (block_timestamp e <=? Quest.endDate q) "Quest has expired".

(** ** Constructor *)

Definition constructor (e : Env)
    (_backendWallet : address) (_dailyRewardAmount _claimCooldown : uint256)
  : result State :=
  if _backendWallet =? 0 then Err (Revert "Invalid backend wallet address")
  else if negb (0 <? _dailyRewardAmount)
       then Err (Revert "Daily reward must be greater than 0")
  else if negb (one_hours <=? _claimCooldown)
       then Err (Revert "Cooldown must be at least 1 hour")
  else Ok (mkState (msg_sender e) _backendWallet 0 ∅ ∅ ∅ ∅
                   _dailyRewardAmount _claimCooldown []).

(** ** External functions *)

Definition createQuest (e : Env)
    (_title _description : string) (_reward : uint256)
    (_requirements : list string) (_estimatedTimeMinutes _endDate : uint256)
  : M unit :=
  onlyOwner e ;;
  require (block_timestamp e <? _endDate) "End date must be in the future" ;;
  require (0 <? Z.of_nat (length _requirements))
          "Quest must have at least one requirement" ;;
  (* questCounter++ *)
  c ← gets questCounter;
  c' ← checked_add c 1;
  modify (set_questCounter c') ;;
  (* quests[questCounter] = Quest({...}) *)
  k ← gets questCounter;
  modify (fun s => set_quests
    (<[k := Quest.mk k _title _description _reward _requirements
                     _estimatedTimeMinutes true (block_timestamp e) _endDate]>
       (quests s)) s) ;;
  k ← gets questCounter;
  emit (QuestCreated k _title _reward _endDate).

Definition completeQuestForUser (e : Env) (_user : address) (_questId : uint256)
  : M unit :=
  questExists _questId ;;
  questIsActive e _questId ;;
  o ← gets owner;
  b ← gets backendWallet;
  require ((msg_sender e =? o) || (msg_sender e =? b))
          "Only owner or backend can complete quests" ;;
  require (negb (_user =? 0)) "Invalid user address" ;;
  p ← gets (fun s => (userQuests s !!! _user) !!! _questId);
  require (negb (UserProgress.completed p)) "Quest already completed" ;;
  (* Mark quest as completed for the user *)
  modify (fun s => set_userQuests
    (<[_user := <[_questId := UserProgress.mk true (block_timestamp e)]>
                  (userQuests s !!! _user)]> (userQuests s)) s) ;;
  (* Update user stats *)
  n ← gets (fun s => totalQuestsCompleted s !!! _user);
  n' ← checked_add n 1;
  modify (fun s => set_totalQuestsCompleted
    (<[_user := n']> (totalQuestsCompleted s)) s) ;;
  emit (QuestCompleted _user _questId).

Definition setDailyClaimed (e : Env) (_user : address) : M unit :=
  o ← gets owner;
  b ← gets backendWallet;
  require ((msg_sender e =? o) || (msg_sender e =? b))
          "Only owner or backend can set daily claimed" ;;
  require (negb (_user =? 0)) "Invalid user address" ;;
  userClaim ← gets (fun s => dailyClaims s !!! _user);
  let currentTime := block_timestamp e in
  (* Check if enough time has passed since last claim *)
  cd ← gets claimCooldown;
  next ← checked_add (DailyClaim.lastClaimTime userClaim) cd;
  require (next <=? currentTime) "Daily claim cooldown not met" ;;
  (* Update claim data *)
  modify (fun s => set_dailyClaims
    (<[_user := DailyClaim.mk currentTime true]> (dailyClaims s)) s) ;;
  amount ← gets dailyRewardAmount;
  emit (DailyClaimed _user amount).

(** The scan [for (uint256 i = 1; i <= questCounter; i++)] of
    [getUserDetails].  [iters] is the number of iterations left, that is
    [questCounter - i + 1]; each iteration ends with the checked [i++]. *)
Fixpoint getUserDetails_scan (iters : nat) (_user : address) (i : uint256)
    (completedQuestIds : list uint256) (completedIndex : uint256)
  : M (list uint256 * uint256) :=
  match iters with
  | O => mret (completedQuestIds, completedIndex)
  | S iters' =>
      p ← gets (fun s => (userQuests s !!! _user) !!! i);
      r ← (if UserProgress.completed p then
             a ← array_store completedQuestIds completedIndex i;
             k ← checked_add completedIndex 1;
             mret (a, k)
           else mret (completedQuestIds, completedIndex));
      i' ← checked_add i 1;
      getUserDetails_scan iters' _user i' r.1 r.2
  end.

Definition getUserDetails (e : Env) (_user : address) : M UserDetails.t :=
  total ← gets (fun s => totalQuestsCompleted s !!! _user);
  c ← gets questCounter;
  (* Find all completed quests *)
  r ← getUserDetails_scan (Z.to_nat c) _user 1 (new_array total) 0;
  let completedQuestIds := r.1 in
  (* Get daily claim info *)
  dailyClaimInfo ← gets (fun s => dailyClaims s !!! _user);
  let currentTime := block_timestamp e in
  cd ← gets claimCooldown;
  r2 ← (if DailyClaim.lastClaimTime dailyClaimInfo =? 0 then
          (* First time claiming *)
          mret (true, 0)
        else
          timeSinceLastClaim ←
            checked_sub currentTime (DailyClaim.lastClaimTime dailyClaimInfo);
          if cd <=? timeSinceLastClaim then mret (true, 0)
          else
            t ← checked_sub cd timeSinceLastClaim;
            mret (false, t));
  total' ← gets (fun s => totalQuestsCompleted s !!! _user);
  mret (UserDetails.mk completedQuestIds total' dailyClaimInfo r2.1 r2.2).

Definition getQuest (_questId : uint256) : M Quest.t :=
  questExists _questId ;;
  gets (fun s => quests s !!! _questId).

Definition getTotalQuests : M uint256 := gets questCounter.

(** ** Transactions

    A call to the contract carries its arguments; what comes back is the
    function's return data.  A failed call reverts: storage is left as it
    was before the call. *)

Inductive Call : Type :=
| CreateQuest (_title _description : string) (_reward : uint256)
              (_requirements : list string)
              (_estimatedTimeMinutes _endDate : uint256)
| CompleteQuestForUser (_user : address) (_questId : uint256)
| SetDailyClaimed (_user : address)
| GetUserDetails (_user : address)
| GetQuest (_questId : uint256)
| GetTotalQuests.

Inductive ReturnData : Type :=
| NoReturn
| ReturnUint (n : uint256)
| ReturnQuest (q : Quest.t)
| ReturnUserDetails (d : UserDetails.t).

Definition dispatch (e : Env) (c : Call) : M ReturnData :=
  match c with
  | CreateQuest t d r rq em ed =>
      createQuest e t d r rq em ed ;; mret NoReturn
  | CompleteQuestForUser u q =>
      completeQuestForUser e u q ;; mret NoReturn
  | SetDailyClaimed u =>
      setDailyClaimed e u ;; mret NoReturn
  | GetUserDetails u => d ← getUserDetails e u; mret (ReturnUserDetails d)
  | GetQuest q => x ← getQuest q; mret (ReturnQuest x)
  | GetTotalQuests => n ← getTotalQuests; mret (ReturnUint n)
  end.

Definition transact (e : Env) (c : Call) (s : State) : State :=
  match dispatch e c s with
  | Ok (_, s') => s'
  | Err _ => s
  end.

Fixpoint run (txs : list (Env * Call)) (s : State) : State :=
  match txs with
  | [] => s
  | (e, c) :: txs' => run txs' (transact e c s)
  end.

(** Well-formed call data: every argument fits its Solidity type. *)
Definition wf_env (e : Env) : Prop :=
  is_address (msg_sender e) /\ is_uint256 (block_timestamp e).

Definition wf_call (c : Call) : Prop :=
  match c with
  | CreateQuest _ _ r _ em ed => is_uint256 r /\ is_uint256 em /\ is_uint256 ed
  | CompleteQuestForUser u q => is_address u /\ is_uint256 q
  | SetDailyClaimed u => is_address u
  | GetUserDetails u => is_address u
  | GetQuest q => is_uint256 q
  | GetTotalQuests => True
  end.

(** States the deployed contract can be in, with the timestamp of the
    latest block: block timestamps never decrease along the chain. *)
Inductive reachable : State -> Z -> Prop :=
| reachable_deploy e b a cd s :
    wf_env e -> is_address b -> is_uint256 a -> is_uint256 cd ->
    constructor e b a cd = Ok s ->
    reachable s (block_timestamp e)
| reachable_transact s t e c :
    reachable s t ->
    wf_env e -> wf_call c -> t <= block_timestamp e ->
    reachable (transact e c s) (block_timestamp e).

(** ** Derived observations *)

(** [userQuests[_user][i].completed] *)
Definition completedBy (s : State) (_user : address) (i : uint256) : bool :=
  UserProgress.completed ((userQuests s !!! _user) !!! i).

(** The quest ids a user has completed, by the scan of [getUserDetails]. *)
Definition completedIds (s : State) (_user : address) : list Z :=
  List.filter (completedBy s _user) (seqZ 1 (questCounter s)).

(** The quest ids announced by [QuestCreated] events, in emission order. *)
Fixpoint createdIds (log : list Event) : list Z :=
  match log with
  | [] => []
  | QuestCreated k _ _ _ :: log' => k :: createdIds log'
  | _ :: log' => createdIds log'
  end.

Definition authorized (s : State) (e : Env) : bool :=
  (msg_sender e =? owner s) || (msg_sender e =? backendWallet s).

(** ** The storage invariant of reachable states *)

Record Inv (s : State) (t : Z) : Prop := mkInv {
  inv_clock : is_uint256 t;
  inv_counter : is_uint256 (questCounter s);
  inv_range : forall u q,
    UserProgress.completed ((userQuests s !!! u) !!! q) = true ->
    1 <= q <= questCounter s;
  inv_total : forall u,
    totalQuestsCompleted s !!! u = Z.of_nat (length (completedIds s u));
  inv_claim : forall u,
    0 <= DailyClaim.lastClaimTime (dailyClaims s !!! u) <= t;
  inv_cooldown : one_hours <= claimCooldown s <= MAX_UINT256;
  inv_created : createdIds (events s) = seqZ 1 (questCounter s);
  inv_quests : forall k, 1 <= k <= questCounter s ->
    Quest.id (quests s !!! k) = k /\
    Quest.isActive (quests s !!! k) = true /\
    Quest.createdAt (quests s !!! k) < Quest.endDate (quests s !!! k)
}.

(** [extends s s'] : what later storage [s'] keeps of earlier storage [s].
    The roles and the cooldown are fixed, the quest counter only grows,
    existing quests and recorded completions are never rewritten. *)
Record extends (s s' : State) : Prop := mkExtends {
  ext_owner : owner s' = owner s;
  ext_backend : backendWallet s' = backendWallet s;
  ext_cooldown : claimCooldown s' = claimCooldown s;
  ext_counter : questCounter s <= questCounter s';
  ext_quests : forall k, 0 < k <= questCounter s ->
    quests s' !!! k = quests s !!! k;
  ext_progress : forall u q,
    UserProgress.completed ((userQuests s !!! u) !!! q) = true ->
    (userQuests s' !!! u) !!! q = (userQuests s !!! u) !!! q
}.


(** ** A deployment used in the examples

    Owner [1] deploys at time [1000] with backend wallet [2], a daily
    reward of [10] and a one-hour cooldown, then creates a quest that ends
    at time [2000]; the backend completes it for user [7] at time [1500]. *)
Definition alice : address := 7.
Definition genesis : State := mkState 1 2 0 ∅ ∅ ∅ ∅ 10 3600 [].
Definition as_owner (now : uint256) : Env := mkEnv 1 now.
Definition as_backend (now : uint256) : Env := mkEnv 2 now.
Definition as_stranger (now : uint256) : Env := mkEnv 9 now.
Definition quest1 : Call := CreateQuest "Quest" "First quest" 50 ["visit"] 5 2000.
Definition with_quest : State := transact (as_owner 1000) quest1 genesis.
Definition with_completion : State :=
  transact (as_backend 1500) (CompleteQuestForUser alice 1) with_quest.

(** Three quests; the backend completes quest 3 and then quest 1 for user
    [7], and records a daily claim for that user at time [5000]. *)
Definition busy : State :=
  run [ (as_owner 1000, CreateQuest "Second" "" 20 ["a"; "b"] 10 9000);
        (as_owner 1100, CreateQuest "Third" "" 30 ["c"] 15 9000);
        (as_backend 1600, CompleteQuestForUser alice 3);
        (as_backend 1700, CompleteQuestForUser alice 1);
        (as_backend 5000, SetDailyClaimed alice) ] with_quest.

(** The same deployment with a cooldown of [2^255] seconds, and the state
    after the backend recorded a first claim for user [7] at time [2^255]. *)
Definition long_genesis : State := mkState 1 2 0 ∅ ∅ ∅ ∅ 10 (2 ^ 255) [].
Definition long_claimed : State :=
  transact (as_backend (2 ^ 255)) (SetDailyClaimed alice) long_genesis.

(** ** Further views and observations *)

(** [a[i] = v] on a memory array of any element type. *)
Definition array_assign {A} (a : list A) (i : uint256) (v : A) : M (list A) :=
  if i <? Z.of_nat (length a) then mret (<[Z.to_nat i := v]> a)
  else fail (Panic PANIC_INDEX).

(** The loop [for (uint256 i = 0; i < questCounter; i++)] of
    [getAllQuests]; [iters] is the number of iterations left, that is
    [questCounter - i]. *)
Fixpoint getAllQuests_fill (iters : nat) (i : uint256) (allQuests : list Quest.t)
  : M (list Quest.t) :=
  match iters with
  | O => mret allQuests
  | S iters' =>
      k ← checked_add i 1;
      q ← gets (fun s => quests s !!! k);
      a ← array_assign allQuests i q;
      i' ← checked_add i 1;
      getAllQuests_fill iters' i' a
  end.

Definition getAllQuests : M (list Quest.t) :=
  c ← gets questCounter;
  getAllQuests_fill (Z.to_nat c) 0 (replicate (Z.to_nat c) Quest.zero).

(** The quest ids of the [QuestCompleted] events logged for a user, in
    emission order. *)
Fixpoint completedLog (log : list Event) (_user : address) : list Z :=
  match log with
  | [] => []
  | QuestCompleted u q :: log' =>
      if u =? _user then q :: completedLog log' _user
      else completedLog log' _user
  | _ :: log' => completedLog log' _user
  end.

(** The amounts of the [DailyClaimed] events in the log. *)
Fixpoint claimedAmounts (log : list Event) : list Z :=
  match log with
  | [] => []
  | DailyClaimed _ a :: log' => a :: claimedAmounts log'
  | _ :: log' => claimedAmounts log'
  end.

(** What a call hands back to its caller, storage left aside. *)
Definition returned {A} (r : result (A * State)) : result A :=
  match r with
  | Ok (a, _) => Ok a
  | Err f => Err f
  end.

(** [same_config s s'] : the roles and the daily-claim configuration of
    [s] and [s'] coincide. *)
Definition same_config (s s' : State) : Prop :=
  owner s' = owner s /\ backendWallet s' = backendWallet s /\
  dailyRewardAmount s' = dailyRewardAmount s /\
  claimCooldown s' = claimCooldown s.

(** Further facts kept by every reachable state: the deployment
    parameters are sane, the zero address owns nothing, recorded times are
    consistent, and the log mirrors storage. *)
Record Inv2 (s : State) (t : Z) : Prop := mkInv2 {
  inv2_backend : backendWallet s <> 0;
  inv2_reward : 0 < dailyRewardAmount s;
  inv2_zero_progress : forall q, (userQuests s !!! 0) !!! q = UserProgress.zero;
  inv2_zero_total : totalQuestsCompleted s !!! 0 = 0;
  inv2_zero_claim : dailyClaims s !!! 0 = DailyClaim.zero;
  inv2_createdAt : forall k, 1 <= k <= questCounter s ->
    Quest.createdAt (quests s !!! k) <= t;
  inv2_progress : forall u q,
    (UserProgress.completed ((userQuests s !!! u) !!! q) = true /\
     Quest.createdAt (quests s !!! q)
       <= UserProgress.completedAt ((userQuests s !!! u) !!! q)
       <= Quest.endDate (quests s !!! q) /\
     UserProgress.completedAt ((userQuests s !!! u) !!! q) <= t) \/
    (userQuests s !!! u) !!! q = UserProgress.zero;
  inv2_claimed : forall u,
    (DailyClaim.claimed (dailyClaims s !!! u) = true /\
     claimCooldown s <= DailyClaim.lastClaimTime (dailyClaims s !!! u)) \/
    dailyClaims s !!! u = DailyClaim.zero;
  inv2_log_total : forall u,
    totalQuestsCompleted s !!! u = Z.of_nat (length (completedLog (events s) u));
  inv2_log_progress : forall u q,
    q ∈ completedLog (events s) u <->
    UserProgress.completed ((userQuests s !!! u) !!! q) = true;
  inv2_log_nodup : forall u, NoDup (completedLog (events s) u);
  inv2_log_amounts : forall a,
    a ∈ claimedAmounts (events s) -> a = dailyRewardAmount s
}.

(** * Properties *)

(** ** The external functions in guard-by-guard form *)

Lemma MAX_UINT256_large : 18446744073709551616 <= MAX_UINT256.
Proof. unfold MAX_UINT256. intro H. vm_compute in H. discriminate. Qed.

Ltac unfold_M :=
  unfold require, checked_add, checked_sub, array_store, emit, modify, gets,
    fail, mbind, M_bind, mret, M_ret in *.

Lemma createQuest_unfold e t d r rq em ed s :
  createQuest e t d r rq em ed s =
  if negb (msg_sender e =? owner s)
  then Err (Revert "Only owner can call this function")
  else if negb (block_timestamp e <? ed)
  then Err (Revert "End date must be in the future")
  else if negb (0 <? Z.of_nat (length rq))
  then Err (Revert "Quest must have at least one requirement")
  else if negb (questCounter s + 1 <=? MAX_UINT256)
  then Err (Panic PANIC_ARITHMETIC)
  else Ok (tt,
    mkState (owner s) (backendWallet s) (questCounter s + 1)
      (<[questCounter s + 1 :=
           Quest.mk (questCounter s + 1) t d r rq em true (block_timestamp e) ed]>
         (quests s))
      (userQuests s) (totalQuestsCompleted s) (dailyClaims s)
      (dailyRewardAmount s) (claimCooldown s)
      (events s ++ [QuestCreated (questCounter s + 1) t r ed])).
Proof.
  unfold createQuest, onlyOwner; unfold_M; simpl.
  destruct (msg_sender e =? owner s); simpl; [|reflexivity].
  destruct (block_timestamp e <? ed); simpl; [|reflexivity].
  destruct (0 <? Z.of_nat (length rq)); simpl; [|reflexivity].
  destruct (questCounter s + 1 <=? MAX_UINT256); reflexivity.
Qed.

Lemma completeQuestForUser_unfold e u q s :
  completeQuestForUser e u q s =
  if negb ((0 <? q) && (q <=? questCounter s))
  then Err (Revert "Quest does not exist")
  else if negb (Quest.isActive (quests s !!! q))
  then Err (Revert "Quest is not active")
  else if negb (block_timestamp e <=? Quest.endDate (quests s !!! q))
  then Err (Revert "Quest has expired")
  else if negb (authorized s e)
  then Err (Revert "Only owner or backend can complete quests")
  else if u =? 0
  then Err (Revert "Invalid user address")
  else if UserProgress.completed ((userQuests s !!! u) !!! q)
  then Err (Revert "Quest already completed")
  else if negb (totalQuestsCompleted s !!! u + 1 <=? MAX_UINT256)
  then Err (Panic PANIC_ARITHMETIC)
  else Ok (tt,
    mkState (owner s) (backendWallet s) (questCounter s) (quests s)
      (<[u := <[q := UserProgress.mk true (block_timestamp e)]>
                (userQuests s !!! u)]> (userQuests s))
      (<[u := totalQuestsCompleted s !!! u + 1]> (totalQuestsCompleted s))
      (dailyClaims s) (dailyRewardAmount s) (claimCooldown s)
      (events s ++ [QuestCompleted u q])).
Proof.
  unfold completeQuestForUser, questExists, questIsActive, authorized;
    unfold_M; simpl.
  destruct ((0 <? q) && (q <=? questCounter s)); simpl; [|reflexivity].
  destruct (Quest.isActive (quests s !!! q)); simpl; [|reflexivity].
  destruct (block_timestamp e <=? Quest.endDate (quests s !!! q)); simpl;
    [|reflexivity].
  destruct ((msg_sender e =? owner s) || (msg_sender e =? backendWallet s));
    simpl; [|reflexivity].
  destruct (u =? 0); simpl; [reflexivity|].
  destruct (UserProgress.completed ((userQuests s !!! u) !!! q)); simpl;
    [reflexivity|].
  destruct (totalQuestsCompleted s !!! u + 1 <=? MAX_UINT256); reflexivity.
Qed.

Lemma setDailyClaimed_unfold e u s :
  setDailyClaimed e u s =
  if negb (authorized s e)
  then Err (Revert "Only owner or backend can set daily claimed")
  else if u =? 0
  then Err (Revert "Invalid user address")
  else if negb (DailyClaim.lastClaimTime (dailyClaims s !!! u) + claimCooldown s
                <=? MAX_UINT256)
  then Err (Panic PANIC_ARITHMETIC)
  else if negb (DailyClaim.lastClaimTime (dailyClaims s !!! u) + claimCooldown s
                <=? block_timestamp e)
  then Err (Revert "Daily claim cooldown not met")
  else Ok (tt,
    mkState (owner s) (backendWallet s) (questCounter s) (quests s)
      (userQuests s) (totalQuestsCompleted s)
      (<[u := DailyClaim.mk (block_timestamp e) true]> (dailyClaims s))
      (dailyRewardAmount s) (claimCooldown s)
      (events s ++ [DailyClaimed u (dailyRewardAmount s)])).
Proof.
  unfold setDailyClaimed, authorized; unfold_M; simpl.
  destruct ((msg_sender e =? owner s) || (msg_sender e =? backendWallet s));
    simpl; [|reflexivity].
  destruct (u =? 0); simpl; [reflexivity|].
  destruct (DailyClaim.lastClaimTime (dailyClaims s !!! u) + claimCooldown s
            <=? MAX_UINT256); simpl; [|reflexivity].
  destruct (DailyClaim.lastClaimTime (dailyClaims s !!! u) + claimCooldown s
            <=? block_timestamp e); reflexivity.
Qed.

(** ** The scan of [getUserDetails] *)

Section Scan.
Variable s : State.
Variable u : address.

Lemma scan_spec (n : nat) : forall (i : Z) (arr : list Z) (k : nat),
  i + Z.of_nat n <= MAX_UINT256 ->
  (k + length (List.filter (completedBy s u) (seqZ i (Z.of_nat n))) <= length arr)%nat ->
  Z.of_nat (length arr) <= MAX_UINT256 ->
  getUserDetails_scan n u i arr (Z.of_nat k) s =
  Ok ((take k arr ++ List.filter (completedBy s u) (seqZ i (Z.of_nat n))
         ++ drop (k + length (List.filter (completedBy s u) (seqZ i (Z.of_nat n)))) arr,
       Z.of_nat (k + length (List.filter (completedBy s u) (seqZ i (Z.of_nat n))))), s).
Proof.
  induction n as [|n IH]; intros i arr k Hi Hk Harr.
  - simpl. unfold_M. rewrite Nat.add_0_r, take_drop. reflexivity.
  - rewrite seqZ_cons in * by lia.
    replace (Z.pred (Z.of_nat (S n))) with (Z.of_nat n) in * by lia.
    cbn [getUserDetails_scan List.filter] in *. unfold_M.
    fold (completedBy s u i) in *.
    destruct ((completedBy s u) i) eqn:Hd; cbn [length] in *.
    + assert (Hlt : (k < length arr)%nat) by lia.
      replace (Z.of_nat k <? Z.of_nat (length arr)) with true
        by (symmetry; apply Z.ltb_lt; lia).
      replace (Z.of_nat k + 1 <=? MAX_UINT256) with true
        by (symmetry; apply Z.leb_le; lia).
      replace (i + 1 <=? MAX_UINT256) with true
        by (symmetry; apply Z.leb_le; lia).
      cbn [fst snd]. rewrite Nat2Z.id.
      replace (Z.of_nat k + 1) with (Z.of_nat (S k)) by lia.
      replace (i + 1) with (Z.succ i) by lia.
      rewrite IH; [| lia | rewrite length_insert; lia | rewrite length_insert; lia].
      rewrite (take_S_r _ k i) by (apply list_lookup_insert_eq; lia).
      rewrite take_insert_ge by lia.
      rewrite drop_insert_lt by lia.
      rewrite <- app_assoc. cbn [app].
      rewrite Nat.add_succ_comm. reflexivity.
    + replace (i + 1 <=? MAX_UINT256) with true
        by (symmetry; apply Z.leb_le; lia).
      cbn [fst snd]. replace (i + 1) with (Z.succ i) by lia.
      apply IH; lia.
Qed.

(** The scan only reads storage. *)
Lemma scan_view (n : nat) : forall i arr idx r s',
  getUserDetails_scan n u i arr idx s = Ok (r, s') -> s' = s.
Proof.
  induction n as [|n IH]; intros i arr idx r s' H.
  - simpl in H. unfold_M. congruence.
  - cbn [getUserDetails_scan] in H. unfold_M.
    destruct (UserProgress.completed _).
    + destruct (idx <? Z.of_nat (length arr)); [|discriminate].
      destruct (idx + 1 <=? MAX_UINT256); [|discriminate].
      destruct (i + 1 <=? MAX_UINT256); [|discriminate].
      eapply IH; eassumption.
    + destruct (i + 1 <=? MAX_UINT256); [|discriminate].
      eapply IH; eassumption.
Qed.
End Scan.

(** The daily-claim fields as [getUserDetails] computes them. *)
Lemma getUserDetails_spec e u s :
  0 <= questCounter s < MAX_UINT256 ->
  totalQuestsCompleted s !!! u = Z.of_nat (length (completedIds s u)) ->
  totalQuestsCompleted s !!! u <= MAX_UINT256 ->
  DailyClaim.lastClaimTime (dailyClaims s !!! u) <= block_timestamp e ->
  getUserDetails e u s =
  Ok (UserDetails.mk
        (completedIds s u)
        (totalQuestsCompleted s !!! u)
        (dailyClaims s !!! u)
        (if DailyClaim.lastClaimTime (dailyClaims s !!! u) =? 0 then true
         else claimCooldown s <=?
              block_timestamp e - DailyClaim.lastClaimTime (dailyClaims s !!! u))
        (if DailyClaim.lastClaimTime (dailyClaims s !!! u) =? 0 then 0
         else if claimCooldown s <=?
                 block_timestamp e - DailyClaim.lastClaimTime (dailyClaims s !!! u)
              then 0
              else claimCooldown s -
                   (block_timestamp e
                    - DailyClaim.lastClaimTime (dailyClaims s !!! u))),
      s).
Proof.
  intros Hc Htot Hmax Hlast.
  unfold getUserDetails. unfold mbind at 1 2 3, M_bind at 1 2 3, gets at 1 2.
  change 0 with (Z.of_nat 0) at 1.
  assert (Hids : List.filter (completedBy s u)
            (seqZ 1 (Z.of_nat (Z.to_nat (questCounter s)))) = completedIds s u).
  { unfold completedIds. rewrite Z2Nat.id by lia. reflexivity. }
  rewrite scan_spec; rewrite ?Hids.
  - unfold new_array. rewrite Htot, Nat2Z.id.
    cbn [take app Nat.add fst snd].
    rewrite drop_ge by (rewrite length_replicate; lia).
    rewrite app_nil_r. unfold_M. cbn [fst snd].
    destruct (DailyClaim.lastClaimTime (dailyClaims s !!! u) =? 0) eqn:H0;
      cbn [fst snd]; [rewrite <- Htot; reflexivity|].
    replace (DailyClaim.lastClaimTime (dailyClaims s !!! u) <=? block_timestamp e)
      with true by (symmetry; apply Z.leb_le; lia).
    destruct (claimCooldown s <=? _) eqn:Hcd; cbn [fst snd];
      [rewrite <- Htot; reflexivity|].
    apply Z.leb_gt in Hcd.
    replace (_ <=? claimCooldown s) with true
      by (symmetry; apply Z.leb_le; lia).
    cbn [fst snd]. rewrite <- Htot. reflexivity.
  - rewrite Z2Nat.id by lia. lia.
  - unfold new_array. rewrite length_replicate, Htot, Nat2Z.id. lia.
  - unfold new_array. rewrite length_replicate.
    rewrite Z2Nat.id by (rewrite Htot; lia). lia.
Qed.

(** [getUserDetails] is a view: whatever it returns, storage is intact. *)
Lemma getUserDetails_view e u s d s' :
  getUserDetails e u s = Ok (d, s') -> s' = s.
Proof.
  unfold getUserDetails. unfold mbind at 1 2 3, M_bind at 1 2 3, gets at 1 2.
  destruct (getUserDetails_scan _ _ _ _ _ s) as [[r s1]|] eqn:Hscan;
    [|discriminate].
  apply scan_view in Hscan. subst s1. unfold_M.
  destruct (DailyClaim.lastClaimTime (dailyClaims s !!! u) =? 0);
    [congruence|].
  destruct (_ <=? block_timestamp e); [|discriminate].
  destruct (claimCooldown s <=? _); [congruence|].
  destruct (_ <=? claimCooldown s); [congruence|discriminate].
Qed.

(** ** Storage lemmas *)

Lemma userQuests_write (m : gmap Z (gmap Z UserProgress.t)) u q v u' q' :
  (<[u := <[q := v]> (m !!! u)]> m !!! u') !!! q' =
  if decide (u' = u /\ q' = q) then v else (m !!! u') !!! q'.
Proof.
  destruct (decide (u' = u)) as [->|Hu].
  - rewrite lookup_total_insert_eq.
    destruct (decide (q' = q)) as [->|Hq].
    + rewrite lookup_total_insert_eq. rewrite decide_True; auto.
    + rewrite lookup_total_insert_ne by congruence.
      rewrite decide_False; [reflexivity | intros [_ ?]; contradiction].
  - rewrite lookup_total_insert_ne by congruence.
    rewrite decide_False; [reflexivity | intros [? _]; contradiction].
Qed.

Lemma filter_length_flip (f g : Z -> bool) (l : list Z) (q : Z) :
  NoDup l -> q ∈ l -> f q = false -> g q = true ->
  (forall j, j <> q -> g j = f j) ->
  length (List.filter g l) = S (length (List.filter f l)).
Proof.
  intros Hnd Hin Hf Hg Hext. induction l as [|a l IH]; [inversion Hin|].
  apply NoDup_cons in Hnd as [Hnotin Hnd].
  destruct (decide (a = q)) as [->|Hne].
  - cbn [List.filter]. rewrite Hf, Hg. cbn [length]. f_equal. f_equal.
    apply List.filter_ext_in. intros j Hj. apply Hext.
    intros ->. apply Hnotin. apply list_elem_of_In. exact Hj.
  - apply elem_of_cons in Hin as [Heq|Hin]; [congruence|].
    cbn [List.filter]. rewrite (Hext a Hne).
    destruct (f a); cbn [length]; rewrite IH; auto.
Qed.

Lemma createdIds_app (l1 l2 : list Event) :
  createdIds (l1 ++ l2) = createdIds l1 ++ createdIds l2.
Proof.
  induction l1 as [|ev l1 IH]; [reflexivity|].
  destruct ev; cbn [createdIds app]; rewrite IH; reflexivity.
Qed.

Lemma seqZ_snoc (n : Z) : 0 <= n -> seqZ 1 (n + 1) = seqZ 1 n ++ [n + 1].
Proof.
  intros Hn. rewrite seqZ_app by lia. f_equal.
  rewrite seqZ_cons by lia. rewrite seqZ_nil by lia.
  f_equal; lia.
Qed.

(** ** The invariant holds in every reachable state *)

Lemma completedIds_length_le s u :
  0 <= questCounter s ->
  Z.of_nat (length (completedIds s u)) <= questCounter s.
Proof.
  intros Hc. unfold completedIds.
  pose proof (List.filter_length_le (completedBy s u)
    (seqZ 1 (questCounter s))) as Hle.
  rewrite length_seqZ in Hle. lia.
Qed.

Lemma Inv_mono s t t' : Inv s t -> t <= t' -> is_uint256 t' -> Inv s t'.
Proof.
  intros [] Hle Ht'. constructor; auto.
  intros u. specialize (inv_claim0 u). lia.
Qed.

Lemma Inv_constructor e b a cd s :
  is_uint256 (block_timestamp e) -> is_uint256 cd ->
  constructor e b a cd = Ok s -> Inv s (block_timestamp e).
Proof.
  intros Ht Hcd. unfold constructor.
  destruct (b =? 0); [discriminate|].
  destruct (0 <? a); [|discriminate].
  destruct (one_hours <=? cd) eqn:Hh; [|discriminate].
  cbn [negb]. intros [= <-]. apply Z.leb_le in Hh.
  constructor; unfold is_uint256 in *;
    cbn [questCounter userQuests totalQuestsCompleted dailyClaims
         claimCooldown events quests createdIds].
  - exact Ht.
  - pose proof MAX_UINT256_large. lia.
  - intros u q. rewrite !lookup_total_empty. cbn. discriminate.
  - intros u. rewrite lookup_total_empty. reflexivity.
  - intros u. rewrite lookup_total_empty. cbn. lia.
  - lia.
  - reflexivity.
  - intros k Hk. lia.
Qed.

Lemma Inv_createQuest e ti d r rq em ed s t x s' :
  Inv s t -> t <= block_timestamp e -> is_uint256 (block_timestamp e) ->
  createQuest e ti d r rq em ed s = Ok (x, s') ->
  Inv s' (block_timestamp e).
Proof.
  intros HI Hle Hnow. rewrite createQuest_unfold.
  destruct (msg_sender e =? owner s); [|discriminate].
  destruct (block_timestamp e <? ed) eqn:Hed; [|discriminate].
  destruct (0 <? Z.of_nat (length rq)); [|discriminate].
  destruct (questCounter s + 1 <=? MAX_UINT256) eqn:Hc; [|discriminate].
  cbn [negb]. intros [= _ <-].
  apply Z.ltb_lt in Hed. apply Z.leb_le in Hc.
  destruct HI as [Hclk Hcnt Hrange Htot Hclaim Hcd Hcr Hq].
  unfold is_uint256 in *.
  assert (Hfresh : forall u,
    UserProgress.completed ((userQuests s !!! u) !!! (questCounter s + 1)) = false).
  { intros u. destruct (UserProgress.completed _) eqn:Hd; [|reflexivity].
    apply Hrange in Hd. lia. }
  constructor; unfold is_uint256, completedIds, completedBy in *;
    cbn [questCounter userQuests totalQuestsCompleted dailyClaims
         claimCooldown events quests].
  - exact Hnow.
  - lia.
  - intros u q Hd. apply Hrange in Hd. lia.
  - intros u. rewrite seqZ_snoc by lia. rewrite List.filter_app.
    cbn [List.filter userQuests]. rewrite Hfresh, app_nil_r. apply Htot.
  - intros u. specialize (Hclaim u). lia.
  - exact Hcd.
  - rewrite createdIds_app, Hcr, seqZ_snoc by lia. reflexivity.
  - intros k Hk. destruct (decide (k = questCounter s + 1)) as [->|Hne].
    + rewrite lookup_total_insert_eq. cbn. auto.
    + rewrite lookup_total_insert_ne by congruence. apply Hq. lia.
Qed.

Lemma Inv_completeQuestForUser e u q s t x s' :
  Inv s t -> t <= block_timestamp e -> is_uint256 (block_timestamp e) ->
  completeQuestForUser e u q s = Ok (x, s') ->
  Inv s' (block_timestamp e).
Proof.
  intros HI Hle Hnow. rewrite completeQuestForUser_unfold.
  destruct ((0 <? q) && (q <=? questCounter s)) eqn:Hex; [|discriminate].
  destruct (Quest.isActive (quests s !!! q)); [|discriminate].
  destruct (block_timestamp e <=? Quest.endDate (quests s !!! q)); [|discriminate].
  destruct (authorized s e); [|discriminate].
  destruct (u =? 0); [discriminate|].
  destruct (UserProgress.completed ((userQuests s !!! u) !!! q)) eqn:Hnot;
    [discriminate|].
  destruct (totalQuestsCompleted s !!! u + 1 <=? MAX_UINT256); [|discriminate].
  cbn [negb]. intros [= _ <-].
  apply andb_true_iff in Hex as [Hq1 Hq2].
  apply Z.ltb_lt in Hq1. apply Z.leb_le in Hq2.
  destruct HI as [Hclk Hcnt Hrange Htot Hclaim Hcd Hcr Hq].
  constructor; unfold is_uint256, completedIds, completedBy in *;
    cbn [questCounter userQuests totalQuestsCompleted dailyClaims
         claimCooldown events quests].
  - exact Hnow.
  - exact Hcnt.
  - intros u' q'. rewrite userQuests_write.
    destruct (decide (u' = u /\ q' = q)) as [[-> ->]|_]; [lia | apply Hrange].
  - intros u'. destruct (decide (u' = u)) as [->|Hne].
    + rewrite lookup_total_insert_eq, Htot.
      match goal with
      | |- _ = Z.of_nat (length (List.filter ?g ?l)) =>
          rewrite (filter_length_flip
            (fun i => UserProgress.completed ((userQuests s !!! u) !!! i))
            g l q)
      end.
      * lia.
      * apply NoDup_seqZ.
      * apply elem_of_seqZ. lia.
      * exact Hnot.
      * rewrite userQuests_write. rewrite decide_True; auto.
      * intros j Hj. rewrite userQuests_write.
        rewrite decide_False; [reflexivity | intros [_ ?]; contradiction].
    + rewrite lookup_total_insert_ne by congruence. rewrite Htot.
      do 2 f_equal. apply List.filter_ext. intros j.
      rewrite userQuests_write.
      rewrite decide_False; [reflexivity | intros [? _]; contradiction].
  - intros u'. specialize (Hclaim u'). lia.
  - exact Hcd.
  - rewrite createdIds_app, Hcr. cbn. apply app_nil_r.
  - exact Hq.
Qed.

Lemma Inv_setDailyClaimed e u s t x s' :
  Inv s t -> t <= block_timestamp e -> is_uint256 (block_timestamp e) ->
  setDailyClaimed e u s = Ok (x, s') ->
  Inv s' (block_timestamp e).
Proof.
  intros HI Hle Hnow. rewrite setDailyClaimed_unfold.
  destruct (authorized s e); [|discriminate].
  destruct (u =? 0); [discriminate|].
  destruct (_ <=? MAX_UINT256); [|discriminate].
  destruct (_ <=? block_timestamp e); [|discriminate].
  cbn [negb]. intros [= _ <-].
  destruct HI as [Hclk Hcnt Hrange Htot Hclaim Hcd Hcr Hq].
  constructor; unfold is_uint256, completedIds, completedBy in *;
    cbn [questCounter userQuests totalQuestsCompleted dailyClaims
         claimCooldown events quests]; auto.
  - intros u'. destruct (decide (u' = u)) as [->|Hne].
    + rewrite lookup_total_insert_eq. cbn. lia.
    + rewrite lookup_total_insert_ne by congruence.
      specialize (Hclaim u'). lia.
  - rewrite createdIds_app, Hcr. cbn. apply app_nil_r.
Qed.

(** A transaction either leaves storage as it was (a failed call, or a
    view) or is one of the three successful mutations. *)
Lemma transact_cases e c s :
  transact e c s = s \/
  (exists ti d r rq em ed,
      c = CreateQuest ti d r rq em ed /\
      createQuest e ti d r rq em ed s = Ok (tt, transact e c s)) \/
  (exists u q,
      c = CompleteQuestForUser u q /\
      completeQuestForUser e u q s = Ok (tt, transact e c s)) \/
  (exists u,
      c = SetDailyClaimed u /\
      setDailyClaimed e u s = Ok (tt, transact e c s)).
Proof.
  destruct c as [ti d r rq em ed|u q|u|u|q|];
    unfold transact, dispatch, mbind, M_bind, mret, M_ret.
  - destruct (createQuest e ti d r rq em ed s) as [[[] s1]|] eqn:H; [|auto].
    right; left. exists ti, d, r, rq, em, ed. auto.
  - destruct (completeQuestForUser e u q s) as [[[] s1]|] eqn:H; [|auto].
    right; right; left. exists u, q. auto.
  - destruct (setDailyClaimed e u s) as [[[] s1]|] eqn:H; [|auto].
    right; right; right. exists u. auto.
  - destruct (getUserDetails e u s) as [[dd s1]|] eqn:H; [|auto].
    apply getUserDetails_view in H. subst. auto.
  - left. unfold getQuest, questExists. unfold_M. cbn.
    destruct ((0 <? q) && (q <=? questCounter s)); reflexivity.
  - left. reflexivity.
Qed.

Lemma reachable_Inv s t : reachable s t -> Inv s t.
Proof.
  induction 1 as [e b a cd s He Hb Ha Hcd Hc | s t e c Hr IH He Hc Hle].
  - destruct He. eapply Inv_constructor; eauto.
  - destruct He as [_ Hnow].
    destruct (transact_cases e c s) as [-> | [H | [H | H]]].
    + eapply Inv_mono; eauto.
    + destruct H as (ti & d & r & rq & em & ed & _ & H).
      eapply Inv_createQuest; eauto.
    + destruct H as (u & q & _ & H). eapply Inv_completeQuestForUser; eauto.
    + destruct H as (u & _ & H). eapply Inv_setDailyClaimed; eauto.
Qed.

(** ** What later storage keeps *)

Lemma extends_refl s : extends s s.
Proof. constructor; auto. lia. Qed.

Lemma extends_trans s1 s2 s3 : extends s1 s2 -> extends s2 s3 -> extends s1 s3.
Proof.
  intros [Ho Hb Hc Hn Hq Hp] [Ho' Hb' Hc' Hn' Hq' Hp']. constructor.
  - congruence.
  - congruence.
  - congruence.
  - lia.
  - intros k Hk. rewrite Hq' by lia. apply Hq. exact Hk.
  - intros u q Hd. rewrite Hp'; [apply Hp; exact Hd|].
    rewrite Hp; exact Hd.
Qed.

Lemma transact_extends e c s : extends s (transact e c s).
Proof.
  destruct (transact_cases e c s) as [-> | [H | [H | H]]].
  - apply extends_refl.
  - destruct H as (ti & d & r & rq & em & ed & _ & H).
    rewrite createQuest_unfold in H.
    destruct (negb _); [discriminate|].
    destruct (negb _); [discriminate|].
    destruct (negb _); [discriminate|].
    destruct (negb _); [discriminate|].
    injection H as <-. constructor; cbn; auto; [lia|].
    intros k Hk. apply lookup_total_insert_ne. lia.
  - destruct H as (u & q & _ & H).
    rewrite completeQuestForUser_unfold in H.
    destruct (negb _); [discriminate|].
    destruct (negb _); [discriminate|].
    destruct (negb _); [discriminate|].
    destruct (negb _); [discriminate|].
    destruct (u =? 0); [discriminate|].
    destruct (UserProgress.completed ((userQuests s !!! u) !!! q)) eqn:Hnot;
      [discriminate|].
    destruct (negb _); [discriminate|].
    injection H as <-. constructor; cbn; auto; [lia|].
    intros u' q' Hd. rewrite userQuests_write.
    rewrite decide_False; [reflexivity|].
    intros [-> ->]. congruence.
  - destruct H as (u & _ & H).
    rewrite setDailyClaimed_unfold in H.
    destruct (negb _); [discriminate|].
    destruct (u =? 0); [discriminate|].
    destruct (negb _); [discriminate|].
    destruct (negb _); [discriminate|].
    injection H as <-. constructor; cbn; auto. lia.
Qed.

Lemma run_extends txs : forall s, extends s (run txs s).
Proof.
  induction txs as [|[e c] txs IH]; intros s; cbn [run].
  - apply extends_refl.
  - eapply extends_trans; [apply transact_extends | apply IH].
Qed.

Lemma authorized_extends s s' e :
  extends s s' -> authorized s' e = authorized s e.
Proof. intros [Ho Hb _ _ _ _]. unfold authorized. rewrite Ho, Hb. reflexivity. Qed.

(** ** Sortedness of the scan's result *)

Lemma seqZ_StronglySorted (n : nat) : forall m,
  StronglySorted Z.lt (seqZ m (Z.of_nat n)).
Proof.
  induction n as [|n IH]; intros m.
  - rewrite seqZ_nil by lia. constructor.
  - rewrite seqZ_cons by lia.
    replace (Z.pred (Z.of_nat (S n))) with (Z.of_nat n) by lia.
    constructor; [apply IH|].
    apply Forall_forall. intros k Hk. apply elem_of_seqZ in Hk. lia.
Qed.

Lemma filter_StronglySorted (f : Z -> bool) (l : list Z) :
  StronglySorted Z.lt l -> StronglySorted Z.lt (List.filter f l).
Proof.
  induction 1 as [|a l Hs IH Hall]; cbn [List.filter]; [constructor|].
  destruct (f a); [|exact IH].
  constructor; [exact IH|].
  apply Forall_forall. intros k Hk.
  apply list_elem_of_In, List.filter_In in Hk as [Hk _].
  rewrite Forall_forall in Hall. apply Hall. apply list_elem_of_In. exact Hk.
Qed.

Lemma completedIds_StronglySorted s u : StronglySorted Z.lt (completedIds s u).
Proof.
  unfold completedIds. apply filter_StronglySorted.
  destruct (Z_le_gt_dec 0 (questCounter s)) as [Hc|Hc].
  - rewrite <- (Z2Nat.id (questCounter s)) by lia. apply seqZ_StronglySorted.
  - rewrite seqZ_nil by lia. constructor.
Qed.

(** ** The loop counter of the scan cannot pass [MAX_UINT256] *)

Lemma scan_overflow s u (n : nat) : forall i arr idx,
  (0 < n)%nat -> MAX_UINT256 < i + Z.of_nat n ->
  exists f, getUserDetails_scan n u i arr idx s = Err f.
Proof.
  induction n as [|n IH]; intros i arr idx Hn Hov; [lia|].
  cbn [getUserDetails_scan]. unfold_M.
  destruct (UserProgress.completed _).
  - destruct (idx <? Z.of_nat (length arr)); [|eauto].
    destruct (idx + 1 <=? MAX_UINT256); [|eauto].
    destruct (i + 1 <=? MAX_UINT256) eqn:Hi; [|eauto].
    apply Z.leb_le in Hi. apply IH; lia.
  - destruct (i + 1 <=? MAX_UINT256) eqn:Hi; [|eauto].
    apply Z.leb_le in Hi. apply IH; lia.
Qed.

Lemma getUserDetails_Ok_counter e u s d s' :
  0 <= questCounter s <= MAX_UINT256 ->
  getUserDetails e u s = Ok (d, s') -> questCounter s < MAX_UINT256.
Proof.
  intros Hc H. destruct (Z_lt_ge_dec (questCounter s) MAX_UINT256) as [|Hge];
    [assumption|exfalso].
  pose proof MAX_UINT256_large as Hbig.
  unfold getUserDetails in H.
  unfold mbind at 1 2 3, M_bind at 1 2 3, gets at 1 2 in H.
  destruct (scan_overflow s u (Z.to_nat (questCounter s)) 1
              (new_array (totalQuestsCompleted s !!! u)) 0) as [f Hf].
  - lia.
  - rewrite Z2Nat.id by lia. lia.
  - rewrite Hf in H. discriminate.
Qed.

(** ** The example deployment *)

Lemma is_uint256_check n :
  (0 <=? n) && (n <=? MAX_UINT256) = true -> is_uint256 n.
Proof. intros H. apply andb_true_iff in H as [H1 H2]. split; lia. Qed.

Lemma is_address_check a :
  (0 <=? a) && (a <=? MAX_ADDRESS) = true -> is_address a.
Proof. intros H. apply andb_true_iff in H as [H1 H2]. split; lia. Qed.

Ltac in_range :=
  repeat split;
  first [ apply is_uint256_check; vm_compute; reflexivity
        | apply is_address_check; vm_compute; reflexivity ].

Lemma genesis_reachable : reachable genesis 1000.
Proof.
  apply (reachable_deploy (as_owner 1000) 2 10 3600 genesis);
    [in_range | in_range | in_range | in_range | reflexivity].
Qed.

Lemma with_quest_reachable : reachable with_quest 1000.
Proof.
  apply (reachable_transact genesis 1000 (as_owner 1000) quest1);
    [apply genesis_reachable | in_range | in_range | cbn; lia].
Qed.

Lemma with_completion_reachable : reachable with_completion 1500.
Proof.
  apply (reachable_transact with_quest 1000 (as_backend 1500)
           (CompleteQuestForUser alice 1));
    [apply with_quest_reachable | in_range | in_range | cbn; lia].
Qed.

Ltac step_from t0 :=
  refine (reachable_transact _ t0 _ _ _ _ _ _);
  [ | in_range | in_range | cbn; lia ].

Lemma busy_reachable : reachable busy 5000.
Proof.
  unfold busy. cbn [run].
  step_from 1700. step_from 1600. step_from 1100. step_from 1000.
  step_from 1000. apply with_quest_reachable.
Qed.

Example busy_details :
  getUserDetails (as_stranger 6800) alice busy
  = Ok (UserDetails.mk [1; 3] 2 (DailyClaim.mk 5000 true) false 1800, busy).
Proof. vm_compute. reflexivity. Qed.

Example busy_log :
  events busy =
  [ QuestCreated 1 "Quest" 50 2000; QuestCreated 2 "Second" 20 9000;
    QuestCreated 3 "Third" 30 9000; QuestCompleted alice 3;
    QuestCompleted alice 1; DailyClaimed alice 10 ].
Proof. vm_compute. reflexivity. Qed.

Example busy_expired_quest_not_completed :
  completeQuestForUser (as_backend 2500) 8 1 busy
  = Err (Revert "Quest has expired").
Proof. vm_compute. reflexivity. Qed.

Example busy_claim_after_cooldown :
  exists s', setDailyClaimed (as_backend 8600) alice busy = Ok (tt, s').
Proof. eexists. vm_compute. reflexivity. Qed.

(** ** One-way completion *)

Lemma completeQuestForUser_transact e u q s s1 :
  completeQuestForUser e u q s = Ok (tt, s1) ->
  transact e (CompleteQuestForUser u q) s = s1.
Proof.
  intros H. unfold transact, dispatch, mbind, M_bind. rewrite H. reflexivity.
Qed.

(** C1 (as amended).  Once [completeQuestForUser] has succeeded for a
    (user, quest) pair at time [t], then after any further transactions the
    stored progress record is still [{completed: true, completedAt: t}],
    and every later call for the same pair fails.  The failure is "Quest
    already completed" when the call comes from the owner or the backend
    no later than the quest's end date; it is "Quest has expired" after the
    end date and "Only owner or backend can complete quests" for any other
    caller, since those guards run before the completion check. *)
Theorem completion_is_final s e u q s1 txs e' :
  completeQuestForUser e u q s = Ok (tt, s1) ->
  (userQuests (run txs s1) !!! u) !!! q
    = UserProgress.mk true (block_timestamp e) /\
  completeQuestForUser e' u q (run txs s1) =
    Err (if negb (block_timestamp e' <=? Quest.endDate (quests s !!! q))
         then Revert "Quest has expired"
         else if negb (authorized s e')
         then Revert "Only owner or backend can complete quests"
         else Revert "Quest already completed").
Proof.
  intros H.
  assert (Hext1 : extends s s1).
  { rewrite <- (completeQuestForUser_transact _ _ _ _ _ H).
    apply transact_extends. }
  pose proof (run_extends txs s1) as Hext2.
  pose proof (extends_trans _ _ _ Hext1 Hext2) as Hext.
  rewrite completeQuestForUser_unfold in H.
  destruct ((0 <? q) && (q <=? questCounter s)) eqn:Hex; [|discriminate].
  destruct (Quest.isActive (quests s !!! q)) eqn:Hact; [|discriminate].
  destruct (block_timestamp e <=? Quest.endDate (quests s !!! q)); [|discriminate].
  destruct (authorized s e); [|discriminate].
  destruct (u =? 0) eqn:Hu; [discriminate|].
  destruct (UserProgress.completed ((userQuests s !!! u) !!! q)); [discriminate|].
  destruct (totalQuestsCompleted s !!! u + 1 <=? MAX_UINT256); [|discriminate].
  cbn [negb] in H. injection H as Hs1.
  apply andb_true_iff in Hex as [Hq1 Hq2].
  apply Z.ltb_lt in Hq1. apply Z.leb_le in Hq2.
  assert (Hrec : (userQuests s1 !!! u) !!! q
                 = UserProgress.mk true (block_timestamp e)).
  { rewrite <- Hs1. cbn [userQuests]. rewrite userQuests_write.
    rewrite decide_True; auto. }
  assert (Hkeep : (userQuests (run txs s1) !!! u) !!! q
                  = UserProgress.mk true (block_timestamp e)).
  { rewrite (ext_progress _ _ Hext2); [exact Hrec|]. rewrite Hrec. reflexivity. }
  split; [exact Hkeep|].
  rewrite completeQuestForUser_unfold.
  pose proof (ext_counter _ _ Hext) as Hcnt.
  replace ((0 <? q) && (q <=? questCounter (run txs s1))) with true
    by (symmetry; apply andb_true_iff; split;
        [apply Z.ltb_lt | apply Z.leb_le]; lia).
  rewrite (ext_quests _ _ Hext) by lia.
  rewrite Hact, (authorized_extends _ _ _ Hext), Hu, Hkeep.
  cbn [negb UserProgress.completed].
  destruct (block_timestamp e' <=? Quest.endDate (quests s !!! q));
    cbn [negb]; [|reflexivity].
  destruct (authorized s e'); reflexivity.
Qed.

Lemma completion_is_final_witness :
  completeQuestForUser (as_backend 1500) alice 1 with_quest
    = Ok (tt, with_completion) /\
  (userQuests (run [] with_completion) !!! alice) !!! 1
    = UserProgress.mk true (block_timestamp (as_backend 1500)) /\
  completeQuestForUser (as_backend 1600) alice 1 (run [] with_completion) =
    Err (if negb (block_timestamp (as_backend 1600)
                  <=? Quest.endDate (quests with_quest !!! 1))
         then Revert "Quest has expired"
         else if negb (authorized with_quest (as_backend 1600))
         then Revert "Only owner or backend can complete quests"
         else Revert "Quest already completed").
Proof.
  assert (H : completeQuestForUser (as_backend 1500) alice 1 with_quest
              = Ok (tt, with_completion)) by (vm_compute; reflexivity).
  split; [exact H|].
  exact (completion_is_final with_quest (as_backend 1500) alice 1
           with_completion [] (as_backend 1600) H).
Defined.

(** C1 as stated fails: a repeated call made after the quest's end date
    is rejected by the expiry guard ("Quest has expired", the
    QuestUnavailable kind), and a repeated call from a caller that is
    neither owner nor backend is rejected by the caller check; neither
    failure is AlreadyCompleted. *)
Lemma completion_replay_after_expiry :
  reachable with_quest 1000 /\
  completeQuestForUser (as_backend 1500) alice 1 with_quest
    = Ok (tt, with_completion) /\
  completeQuestForUser (as_backend 2001) alice 1 with_completion
    = Err (Revert "Quest has expired") /\
  error_kind (Revert "Quest has expired") = Some QuestUnavailable /\
  error_kind (Revert "Quest has expired") <> Some AlreadyCompleted /\
  completeQuestForUser (as_stranger 1600) alice 1 with_completion
    = Err (Revert "Only owner or backend can complete quests") /\
  error_kind (Revert "Only owner or backend can complete quests")
    <> Some AlreadyCompleted.
Proof.
  split; [apply with_quest_reachable|].
  split; [vm_compute; reflexivity|].
  split; [vm_compute; reflexivity|].
  split; [reflexivity|].
  split; [discriminate|].
  split; [vm_compute; reflexivity | discriminate].
Qed.

(** ** Authority gating *)

Lemma transact_Err e c s f :
  dispatch e c s = Err f -> transact e c s = s.
Proof. intros H. unfold transact. rewrite H. reflexivity. Qed.

(** C2 (as amended).  A mutating call from a caller without the required
    role always fails and leaves storage unchanged.  [createQuest] from
    anyone but the owner, and [setDailyClaimed] from anyone but the owner
    or the backend, fail with their authorization message.
    [completeQuestForUser] checks the quest first: an unauthorized caller
    gets "Quest does not exist", "Quest is not active" or "Quest has
    expired" when one of those guards rejects the quest, and the
    authorization message otherwise. *)
Theorem unauthorized_calls_change_nothing s e :
  msg_sender e <> owner s ->
  (forall ti d r rq em ed,
      createQuest e ti d r rq em ed s
        = Err (Revert "Only owner can call this function") /\
      transact e (CreateQuest ti d r rq em ed) s = s) /\
  (msg_sender e <> backendWallet s ->
   (forall u,
      setDailyClaimed e u s
        = Err (Revert "Only owner or backend can set daily claimed") /\
      transact e (SetDailyClaimed u) s = s) /\
   (forall u q,
      completeQuestForUser e u q s =
        Err (if negb ((0 <? q) && (q <=? questCounter s))
             then Revert "Quest does not exist"
             else if negb (Quest.isActive (quests s !!! q))
             then Revert "Quest is not active"
             else if negb (block_timestamp e <=? Quest.endDate (quests s !!! q))
             then Revert "Quest has expired"
             else Revert "Only owner or backend can complete quests") /\
      transact e (CompleteQuestForUser u q) s = s)).
Proof.
  intros Ho. apply Z.eqb_neq in Ho.
  assert (Hcreate : forall ti d r rq em ed,
    createQuest e ti d r rq em ed s
      = Err (Revert "Only owner can call this function")).
  { intros. rewrite createQuest_unfold, Ho. reflexivity. }
  split.
  - intros ti d r rq em ed. split; [apply Hcreate|].
    eapply transact_Err. unfold dispatch, mbind, M_bind.
    rewrite Hcreate. reflexivity.
  - intros Hb. apply Z.eqb_neq in Hb.
    assert (Hauth : authorized s e = false).
    { unfold authorized. rewrite Ho, Hb. reflexivity. }
    assert (Hset : forall u, setDailyClaimed e u s
      = Err (Revert "Only owner or backend can set daily claimed")).
    { intros u. rewrite setDailyClaimed_unfold, Hauth. reflexivity. }
    assert (Hcomplete : forall u q, completeQuestForUser e u q s =
      Err (if negb ((0 <? q) && (q <=? questCounter s))
           then Revert "Quest does not exist"
           else if negb (Quest.isActive (quests s !!! q))
           then Revert "Quest is not active"
           else if negb (block_timestamp e <=? Quest.endDate (quests s !!! q))
           then Revert "Quest has expired"
           else Revert "Only owner or backend can complete quests")).
    { intros u q. rewrite completeQuestForUser_unfold, Hauth.
      destruct (negb ((0 <? q) && (q <=? questCounter s))); [reflexivity|].
      destruct (negb (Quest.isActive (quests s !!! q))); [reflexivity|].
      destruct (negb (block_timestamp e <=? Quest.endDate (quests s !!! q)));
        reflexivity. }
    split.
    + intros u. split; [apply Hset|].
      eapply transact_Err. unfold dispatch, mbind, M_bind.
      rewrite Hset. reflexivity.
    + intros u q. split; [apply Hcomplete|].
      eapply transact_Err. unfold dispatch, mbind, M_bind.
      rewrite Hcomplete. reflexivity.
Qed.

Lemma unauthorized_calls_change_nothing_witness :
  msg_sender (as_stranger 1500) <> owner with_quest /\
  msg_sender (as_stranger 1500) <> backendWallet with_quest /\
  createQuest (as_stranger 1500) "Other" "" 1 ["x"] 0 3000 with_quest
    = Err (Revert "Only owner can call this function") /\
  transact (as_stranger 1500) (SetDailyClaimed alice) with_quest = with_quest /\
  transact (as_stranger 1500) (CompleteQuestForUser alice 1) with_quest
    = with_quest.
Proof.
  assert (Ho : msg_sender (as_stranger 1500) <> owner with_quest)
    by (vm_compute; discriminate).
  assert (Hb : msg_sender (as_stranger 1500) <> backendWallet with_quest)
    by (vm_compute; discriminate).
  destruct (unauthorized_calls_change_nothing with_quest (as_stranger 1500) Ho)
    as [Hcreate Hrest].
  destruct (Hrest Hb) as [Hset Hcomplete].
  split; [exact Ho|]. split; [exact Hb|].
  split; [exact (proj1 (Hcreate "Other" "" 1 ["x"] 0 3000))|].
  split; [exact (proj2 (Hset alice)) | exact (proj2 (Hcomplete alice 1))].
Defined.

(** C2 as stated fails for [completeQuestForUser]: called by a stranger
    for a quest id that does not exist, it fails with "Quest does not
    exist" (the NotFound kind), and for an expired quest with "Quest has
    expired" (the QuestUnavailable kind), not with Unauthorized. *)
Lemma stranger_completing_unknown_quest :
  reachable genesis 1000 /\
  authorized genesis (as_stranger 1000) = false /\
  completeQuestForUser (as_stranger 1000) alice 1 genesis
    = Err (Revert "Quest does not exist") /\
  error_kind (Revert "Quest does not exist") = Some NotFound /\
  error_kind (Revert "Quest does not exist") <> Some Unauthorized /\
  authorized with_quest (as_stranger 2001) = false /\
  completeQuestForUser (as_stranger 2001) alice 1 with_quest
    = Err (Revert "Quest has expired") /\
  error_kind (Revert "Quest has expired") <> Some Unauthorized.
Proof.
  split; [apply genesis_reachable|].
  split; [reflexivity|].
  split; [vm_compute; reflexivity|].
  split; [reflexivity|].
  split; [discriminate|].
  split; [vm_compute; reflexivity|].
  split; [vm_compute; reflexivity | discriminate].
Qed.

(** ** Daily-claim cooldown *)

Lemma setDailyClaimed_transact e u s s1 :
  setDailyClaimed e u s = Ok (tt, s1) ->
  transact e (SetDailyClaimed u) s = s1.
Proof.
  intros H. unfold transact, dispatch, mbind, M_bind. rewrite H. reflexivity.
Qed.

(** C3 (as amended).  After a successful [setDailyClaimed] for a user at
    time [t0], and as long as that claim is still the user's latest one, a
    call by the owner or the backend for the same user at time [t] fails
    whenever [t0 < t < t0 + claimCooldown] and succeeds whenever
    [t >= t0 + claimCooldown].  The failure in the window is "Daily claim
    cooldown not met" provided [t0 + claimCooldown] fits in a [uint256];
    when that sum overflows, the checked addition panics instead. *)
Theorem cooldown_correct s e0 u s1 txs e :
  setDailyClaimed e0 u s = Ok (tt, s1) ->
  DailyClaim.lastClaimTime (dailyClaims (run txs s1) !!! u) = block_timestamp e0 ->
  authorized s e = true ->
  is_uint256 (block_timestamp e) ->
  (block_timestamp e0 < block_timestamp e < block_timestamp e0 + claimCooldown s ->
   setDailyClaimed e u (run txs s1) =
     Err (if block_timestamp e0 + claimCooldown s <=? MAX_UINT256
          then Revert "Daily claim cooldown not met"
          else Panic PANIC_ARITHMETIC)) /\
  (block_timestamp e0 + claimCooldown s <= block_timestamp e ->
   exists s2,
     setDailyClaimed e u (run txs s1) = Ok (tt, s2) /\
     dailyClaims s2 !!! u = DailyClaim.mk (block_timestamp e) true).
Proof.
  intros H Hlast Hauth [_ Hmax].
  assert (Hext : extends s (run txs s1)).
  { eapply extends_trans; [|apply run_extends].
    rewrite <- (setDailyClaimed_transact _ _ _ _ H). apply transact_extends. }
  rewrite setDailyClaimed_unfold in H.
  destruct (negb (authorized s e0)); [discriminate|].
  destruct (u =? 0) eqn:Hu; [discriminate|].
  clear H.
  rewrite setDailyClaimed_unfold.
  rewrite (authorized_extends _ _ _ Hext), Hauth, Hu, Hlast,
    (ext_cooldown _ _ Hext).
  cbn [negb]. split.
  - intros [_ Hlt].
    destruct (block_timestamp e0 + claimCooldown s <=? MAX_UINT256);
      cbn [negb]; [|reflexivity].
    replace (block_timestamp e0 + claimCooldown s <=? block_timestamp e)
      with false by (symmetry; apply Z.leb_gt; lia).
    reflexivity.
  - intros Hge.
    replace (block_timestamp e0 + claimCooldown s <=? MAX_UINT256) with true
      by (symmetry; apply Z.leb_le; lia).
    replace (block_timestamp e0 + claimCooldown s <=? block_timestamp e)
      with true by (symmetry; apply Z.leb_le; lia).
    cbn [negb]. eexists. split; [reflexivity|].
    cbn [dailyClaims]. apply lookup_total_insert_eq.
Qed.

Lemma cooldown_correct_witness :
  let s1 := transact (as_backend 5000) (SetDailyClaimed alice) with_quest in
  setDailyClaimed (as_backend 5000) alice with_quest = Ok (tt, s1) /\
  setDailyClaimed (as_backend 6800) alice (run [] s1)
    = Err (Revert "Daily claim cooldown not met") /\
  exists s2,
    setDailyClaimed (as_owner 8600) alice (run [] s1) = Ok (tt, s2) /\
    dailyClaims s2 !!! alice = DailyClaim.mk (block_timestamp (as_owner 8600)) true.
Proof.
  intros s1.
  assert (H : setDailyClaimed (as_backend 5000) alice with_quest = Ok (tt, s1))
    by (vm_compute; reflexivity).
  assert (Hlast : DailyClaim.lastClaimTime (dailyClaims (run [] s1) !!! alice)
                  = block_timestamp (as_backend 5000))
    by (vm_compute; reflexivity).
  split; [exact H|]. split.
  - refine (proj1 (cooldown_correct with_quest (as_backend 5000) alice s1 []
                     (as_backend 6800) H Hlast _ _) _).
    + vm_compute; reflexivity.
    + in_range.
    + vm_compute. split; reflexivity.
  - refine (proj2 (cooldown_correct with_quest (as_backend 5000) alice s1 []
                     (as_owner 8600) H Hlast _ _) _).
    + vm_compute; reflexivity.
    + in_range.
    + vm_compute. discriminate.
Defined.

(** C3 as stated fails when [t0 + claimCooldown] does not fit in 256 bits.
    With a cooldown of [2^255] the first claim goes through at time
    [2^255]; one second later, inside the cooldown window, the guard's
    addition overflows and the call ends in [Panic(0x11)], which is not the
    CooldownActive failure. *)
Lemma cooldown_deadline_overflow :
  reachable long_genesis 1000 /\
  setDailyClaimed (as_backend (2 ^ 255)) alice long_genesis
    = Ok (tt, long_claimed) /\
  2 ^ 255 < 2 ^ 255 + 1 < 2 ^ 255 + claimCooldown long_genesis /\
  is_uint256 (2 ^ 255 + 1) /\
  setDailyClaimed (as_backend (2 ^ 255 + 1)) alice long_claimed
    = Err (Panic PANIC_ARITHMETIC) /\
  error_kind (Panic PANIC_ARITHMETIC) <> Some CooldownActive.
Proof.
  split.
  { apply (reachable_deploy (as_owner 1000) 2 10 (2 ^ 255) long_genesis);
      [in_range | in_range | in_range | in_range | reflexivity]. }
  split; [vm_compute; reflexivity|].
  split; [vm_compute; repeat split; reflexivity|].
  split; [in_range|].
  split; [vm_compute; reflexivity | discriminate].
Qed.

(** C4 (the code departs from the claim).  In the example deployment the
    cooldown is 3600 and [alice] has never claimed ([lastClaimTime = 0]).
    At time 1800 the backend's [setDailyClaimed] is rejected with "Daily
    claim cooldown not met", because the guard compares the time with
    [0 + claimCooldown]; at the same time [getUserDetails], which treats
    [lastClaimTime == 0] as "first time claiming", reports
    [canClaimDaily = true]. *)
Theorem first_claim_rejected_before_cooldown :
  reachable genesis 1000 /\
  DailyClaim.lastClaimTime (dailyClaims genesis !!! alice) = 0 /\
  authorized genesis (as_backend 1800) = true /\
  setDailyClaimed (as_backend 1800) alice genesis
    = Err (Revert "Daily claim cooldown not met") /\
  error_kind (Revert "Daily claim cooldown not met") = Some CooldownActive /\
  exists d,
    getUserDetails (as_backend 1800) alice genesis = Ok (d, genesis) /\
    UserDetails.canClaimDaily d = true /\
    UserDetails.timeUntilNextClaim d = 0.
Proof.
  split; [apply genesis_reachable|].
  split; [reflexivity|].
  split; [reflexivity|].
  split; [vm_compute; reflexivity|].
  split; [reflexivity|].
  eexists. split; [vm_compute; reflexivity|]. split; reflexivity.
Qed.

(** The first claim of a user goes through exactly when the block time
    has reached [claimCooldown]. *)
Lemma first_claim_iff s e u :
  authorized s e = true -> u <> 0 ->
  DailyClaim.lastClaimTime (dailyClaims s !!! u) = 0 ->
  0 <= claimCooldown s <= MAX_UINT256 ->
  (exists s', setDailyClaimed e u s = Ok (tt, s')) <->
  claimCooldown s <= block_timestamp e.
Proof.
  intros Hauth Hu Hlast Hcd. rewrite setDailyClaimed_unfold, Hauth, Hlast.
  apply Z.eqb_neq in Hu. rewrite Hu. cbn [negb]. rewrite !Z.add_0_l.
  replace (claimCooldown s <=? MAX_UINT256) with true
    by (symmetry; apply Z.leb_le; lia).
  cbn [negb].
  destruct (claimCooldown s <=? block_timestamp e) eqn:Hle; cbn [negb].
  - apply Z.leb_le in Hle. split; [intros _; exact Hle | eauto].
  - apply Z.leb_gt in Hle. split; [intros [s' Hs']; discriminate | lia].
Qed.

(** ** Quest creation *)



(** C6 (as amended).  Called by the owner, [createQuest] fails with "End
    date must be in the future" whenever [_endDate <= block.timestamp];
    with a future end date it fails with "Quest must have at least one
    requirement" when [_requirements] is empty; otherwise, the checked
    increment of the counter permitting, it succeeds: the counter goes to
    [questCounter + 1], the quest stored under that id has [isActive =
    true] and [createdAt = block.timestamp], and [QuestCreated] announces
    the id.  The function has no return value: the call returns no data. *)
Theorem createQuest_by_owner s e ti d r rq em ed :
  msg_sender e = owner s ->
  (ed <= block_timestamp e ->
   createQuest e ti d r rq em ed s
     = Err (Revert "End date must be in the future")) /\
  (block_timestamp e < ed -> rq = [] ->
   createQuest e ti d r rq em ed s
     = Err (Revert "Quest must have at least one requirement")) /\
  (block_timestamp e < ed -> rq <> [] -> questCounter s < MAX_UINT256 ->
   exists s',
     dispatch e (CreateQuest ti d r rq em ed) s = Ok (NoReturn, s') /\
     questCounter s' = questCounter s + 1 /\
     quests s' !!! (questCounter s + 1)
       = Quest.mk (questCounter s + 1) ti d r rq em true (block_timestamp e) ed /\
     events s' = events s ++ [QuestCreated (questCounter s + 1) ti r ed]).
Proof.
  intros Ho. apply Z.eqb_eq in Ho.
  split; [|split].
  - intros Hed. rewrite createQuest_unfold, Ho. cbn [negb].
    replace (block_timestamp e <? ed) with false
      by (symmetry; apply Z.ltb_ge; lia).
    reflexivity.
  - intros Hed ->. rewrite createQuest_unfold, Ho. cbn [negb].
    replace (block_timestamp e <? ed) with true
      by (symmetry; apply Z.ltb_lt; lia).
    reflexivity.
  - intros Hed Hrq Hc. unfold dispatch, mbind, M_bind.
    rewrite createQuest_unfold, Ho. cbn [negb].
    replace (block_timestamp e <? ed) with true
      by (symmetry; apply Z.ltb_lt; lia).
    replace (0 <? Z.of_nat (length rq)) with true
      by (symmetry; apply Z.ltb_lt; destruct rq; [congruence | cbn; lia]).
    replace (questCounter s + 1 <=? MAX_UINT256) with true
      by (symmetry; apply Z.leb_le; lia).
    cbn [negb]. eexists. split; [reflexivity|].
    cbn [questCounter quests events]. split; [reflexivity|].
    split; [apply lookup_total_insert_eq | reflexivity].
Qed.

Lemma createQuest_by_owner_witness :
  msg_sender (as_owner 1000) = owner genesis /\
  createQuest (as_owner 1000) "Late" "" 1 ["x"] 0 1000 genesis
    = Err (Revert "End date must be in the future") /\
  createQuest (as_owner 1000) "Empty" "" 1 [] 0 2000 genesis
    = Err (Revert "Quest must have at least one requirement") /\
  exists s',
    dispatch (as_owner 1000) (CreateQuest "Quest" "First quest" 50 ["visit"] 5 2000)
             genesis = Ok (NoReturn, s') /\
    questCounter s' = questCounter genesis + 1 /\
    quests s' !!! (questCounter genesis + 1)
      = Quest.mk (questCounter genesis + 1) "Quest" "First quest" 50 ["visit"] 5
                 true (block_timestamp (as_owner 1000)) 2000 /\
    events s' = events genesis
                ++ [QuestCreated (questCounter genesis + 1) "Quest" 50 2000].
Proof.
  assert (Ho : msg_sender (as_owner 1000) = owner genesis) by reflexivity.
  split; [exact Ho|]. split; [|split].
  - refine (proj1 (createQuest_by_owner genesis (as_owner 1000)
                     "Late" "" 1 ["x"] 0 1000 Ho) _).
    cbn. lia.
  - refine (proj1 (proj2 (createQuest_by_owner genesis (as_owner 1000)
                            "Empty" "" 1 [] 0 2000 Ho)) _ _).
    + cbn. lia.
    + reflexivity.
  - refine (proj2 (proj2 (createQuest_by_owner genesis (as_owner 1000)
                            "Quest" "First quest" 50 ["visit"] 5 2000 Ho)) _ _ _).
    + cbn. lia.
    + discriminate.
    + vm_compute. reflexivity.
Defined.

(** C6 as stated fails: a successful [createQuest] hands no value back to
    the caller, although quest id 1 has just been allocated; and with an
    end date that is not in the future, empty requirements are not what the
    call reports. *)
Lemma createQuest_returns_nothing :
  dispatch (as_owner 1000) quest1 genesis = Ok (NoReturn, with_quest) /\
  questCounter with_quest = 1 /\
  NoReturn <> ReturnUint 1 /\
  createQuest (as_owner 1000) "Late" "" 1 [] 0 1000 genesis
    = Err (Revert "End date must be in the future") /\
  error_kind (Revert "End date must be in the future") <> Some InvalidQuest.
Proof.
  split; [vm_compute; reflexivity|].
  split; [vm_compute; reflexivity|].
  split; [discriminate|].
  split; [vm_compute; reflexivity | discriminate].
Qed.

(** ** Expiry *)

(** C7.  For an existing quest, [completeQuestForUser] at a time strictly
    after the quest's [endDate] fails with a QuestUnavailable failure, and
    if the quest is still active that failure is "Quest has expired".  At
    a time equal to [endDate] the [questIsActive] guard of an active quest
    passes, the call cannot fail with QuestUnavailable, and it succeeds for
    an authorized caller, a non-zero user and a quest not yet completed by
    that user (the per-user counter not being at its maximum). *)
Theorem expired_quest_unavailable s e u q :
  0 < q <= questCounter s ->
  (Quest.endDate (quests s !!! q) < block_timestamp e ->
   exists f,
     completeQuestForUser e u q s = Err f /\
     error_kind f = Some QuestUnavailable /\
     (Quest.isActive (quests s !!! q) = true -> f = Revert "Quest has expired")) /\
  (block_timestamp e = Quest.endDate (quests s !!! q) ->
   Quest.isActive (quests s !!! q) = true ->
   questIsActive e q s = Ok (tt, s) /\
   (forall f, completeQuestForUser e u q s = Err f ->
              error_kind f <> Some QuestUnavailable) /\
   (authorized s e = true -> u <> 0 ->
    UserProgress.completed ((userQuests s !!! u) !!! q) = false ->
    totalQuestsCompleted s !!! u < MAX_UINT256 ->
    exists s', completeQuestForUser e u q s = Ok (tt, s'))).
Proof.
  intros [Hq1 Hq2].
  assert (Hex : (0 <? q) && (q <=? questCounter s) = true).
  { apply andb_true_iff. split; [apply Z.ltb_lt | apply Z.leb_le]; lia. }
  split.
  - intros Hlate. rewrite completeQuestForUser_unfold, Hex. cbn [negb].
    destruct (Quest.isActive (quests s !!! q)); cbn [negb].
    + replace (block_timestamp e <=? Quest.endDate (quests s !!! q)) with false
        by (symmetry; apply Z.leb_gt; lia).
      cbn [negb]. eexists. split; [reflexivity|]. split; reflexivity.
    + eexists. split; [reflexivity|]. split; [reflexivity | discriminate].
  - intros Hnow Hact. split; [|split].
    + unfold questIsActive. unfold_M. cbn. rewrite Hact.
      replace (block_timestamp e <=? Quest.endDate (quests s !!! q)) with true
        by (symmetry; apply Z.leb_le; lia).
      reflexivity.
    + intros f. rewrite completeQuestForUser_unfold, Hex, Hact.
      replace (block_timestamp e <=? Quest.endDate (quests s !!! q)) with true
        by (symmetry; apply Z.leb_le; lia).
      cbn [negb].
      destruct (negb (authorized s e)); [intros [= <-]; discriminate|].
      destruct (u =? 0); [intros [= <-]; discriminate|].
      destruct (UserProgress.completed _); [intros [= <-]; discriminate|].
      destruct (negb _); [intros [= <-]; discriminate | discriminate].
    + intros Hauth Hu Hnot Hcnt.
      rewrite completeQuestForUser_unfold, Hex, Hact, Hauth, Hnot.
      replace (block_timestamp e <=? Quest.endDate (quests s !!! q)) with true
        by (symmetry; apply Z.leb_le; lia).
      apply Z.eqb_neq in Hu. rewrite Hu.
      replace (totalQuestsCompleted s !!! u + 1 <=? MAX_UINT256) with true
        by (symmetry; apply Z.leb_le; lia).
      cbn [negb]. eauto.
Qed.

Lemma expired_quest_unavailable_witness :
  0 < 1 <= questCounter with_quest /\
  (exists f,
     completeQuestForUser (as_backend 2001) alice 1 with_quest = Err f /\
     error_kind f = Some QuestUnavailable /\
     (Quest.isActive (quests with_quest !!! 1) = true ->
      f = Revert "Quest has expired")) /\
  questIsActive (as_backend 2000) 1 with_quest = Ok (tt, with_quest).
Proof.
  assert (Hq : 0 < 1 <= questCounter with_quest) by (vm_compute; split; congruence).
  split; [exact Hq|]. split.
  - refine (proj1 (expired_quest_unavailable with_quest (as_backend 2001)
                     alice 1 Hq) _).
    vm_compute. reflexivity.
  - refine (proj1 (proj2 (expired_quest_unavailable with_quest (as_backend 2000)
                            alice 1 Hq) _ _)).
    + vm_compute. reflexivity.
    + vm_compute. reflexivity.
Defined.

(** ** The per-user view *)

Lemma scan_from_start s u :
  0 <= questCounter s < MAX_UINT256 ->
  totalQuestsCompleted s !!! u = Z.of_nat (length (completedIds s u)) ->
  getUserDetails_scan (Z.to_nat (questCounter s)) u 1
    (new_array (totalQuestsCompleted s !!! u)) 0 s
  = Ok ((completedIds s u, totalQuestsCompleted s !!! u), s).
Proof.
  intros Hc Htot.
  pose proof (completedIds_length_le s u) as Hlen.
  change 0 with (Z.of_nat 0) at 1.
  assert (Hids : List.filter (completedBy s u)
            (seqZ 1 (Z.of_nat (Z.to_nat (questCounter s)))) = completedIds s u).
  { unfold completedIds. rewrite Z2Nat.id by lia. reflexivity. }
  rewrite scan_spec; rewrite ?Hids.
  - unfold new_array. rewrite Htot, Nat2Z.id.
    cbn [take app Nat.add].
    rewrite drop_ge by (rewrite length_replicate; lia).
    rewrite app_nil_r. reflexivity.
  - rewrite Z2Nat.id by lia. lia.
  - unfold new_array. rewrite length_replicate, Htot, Nat2Z.id. lia.
  - unfold new_array. rewrite length_replicate, Htot, Nat2Z.id. lia.
Qed.

(** What a returned view holds, in any state. *)
Lemma getUserDetails_inv e u s d s' :
  getUserDetails e u s = Ok (d, s') ->
  s' = s /\
  (exists r,
     getUserDetails_scan (Z.to_nat (questCounter s)) u 1
       (new_array (totalQuestsCompleted s !!! u)) 0 s = Ok (r, s) /\
     UserDetails.completedQuestIds d = r.1) /\
  UserDetails.totalQuestsCompleted d = totalQuestsCompleted s !!! u /\
  UserDetails.dailyClaimInfo d = dailyClaims s !!! u /\
  (DailyClaim.lastClaimTime (dailyClaims s !!! u) = 0 ->
   UserDetails.canClaimDaily d = true /\
   UserDetails.timeUntilNextClaim d = 0) /\
  (DailyClaim.lastClaimTime (dailyClaims s !!! u) <> 0 ->
   claimCooldown s
     <= block_timestamp e - DailyClaim.lastClaimTime (dailyClaims s !!! u) ->
   UserDetails.canClaimDaily d = true /\
   UserDetails.timeUntilNextClaim d = 0) /\
  (DailyClaim.lastClaimTime (dailyClaims s !!! u) <> 0 ->
   block_timestamp e - DailyClaim.lastClaimTime (dailyClaims s !!! u)
     < claimCooldown s ->
   UserDetails.canClaimDaily d = false /\
   UserDetails.timeUntilNextClaim d
     = claimCooldown s
       - (block_timestamp e - DailyClaim.lastClaimTime (dailyClaims s !!! u))).
Proof.
  unfold getUserDetails. unfold mbind at 1 2 3, M_bind at 1 2 3, gets at 1 2.
  destruct (getUserDetails_scan _ _ _ _ _ s) as [[r s1]|] eqn:Hscan;
    [|discriminate].
  pose proof (scan_view _ _ _ _ _ _ _ _ Hscan) as ->. unfold_M.
  destruct (DailyClaim.lastClaimTime (dailyClaims s !!! u) =? 0) eqn:H0.
  { intros [= <- <-]. apply Z.eqb_eq in H0. cbn.
    repeat split; eauto; intros; congruence. }
  apply Z.eqb_neq in H0.
  destruct (_ <=? block_timestamp e); [|discriminate].
  destruct (claimCooldown s <=? _) eqn:Hcd.
  { intros [= <- <-]. apply Z.leb_le in Hcd. cbn.
    repeat split; eauto; intros; first [congruence | lia]. }
  apply Z.leb_gt in Hcd.
  destruct (_ <=? claimCooldown s); [|discriminate].
  intros [= <- <-]. cbn.
  repeat split; eauto; intros; first [congruence | lia].
Qed.

Lemma getUserDetails_ids e u s t d s' :
  reachable s t ->
  getUserDetails e u s = Ok (d, s') ->
  UserDetails.completedQuestIds d = completedIds s u /\
  UserDetails.totalQuestsCompleted d = Z.of_nat (length (completedIds s u)).
Proof.
  intros Hr H. apply reachable_Inv in Hr.
  pose proof (inv_counter _ _ Hr) as Hcnt. unfold is_uint256 in Hcnt.
  pose proof (getUserDetails_Ok_counter _ _ _ _ _ Hcnt H) as Hc.
  destruct (getUserDetails_inv _ _ _ _ _ H) as (_ & (r & Hscan & Hids) & Htot & _).
  rewrite scan_from_start in Hscan by (lia || apply (inv_total _ _ Hr)).
  injection Hscan as <-. cbn in Hids.
  split; [exact Hids|]. rewrite Htot. apply (inv_total _ _ Hr).
Qed.

Lemma getUserDetails_reachable s t e u :
  reachable s t -> t <= block_timestamp e -> questCounter s < MAX_UINT256 ->
  exists d, getUserDetails e u s = Ok (d, s).
Proof.
  intros Hr Hle Hc. apply reachable_Inv in Hr.
  destruct Hr as [Hclk Hcnt Hrange Htot Hclaim Hcd Hcr Hq].
  unfold is_uint256 in *.
  rewrite getUserDetails_spec; eauto.
  - lia.
  - rewrite Htot. pose proof (completedIds_length_le s u). lia.
  - specialize (Hclaim u). lia.
Qed.

Lemma StronglySorted_lt_NoDup (l : list Z) : StronglySorted Z.lt l -> NoDup l.
Proof.
  induction 1 as [|a l Hs IH Hall]; [constructor|].
  apply NoDup_cons. split; [|exact IH].
  intros Hin. rewrite Forall_forall in Hall. specialize (Hall a Hin). lia.
Qed.



(** C8.  In every reachable state and for every user, whenever
    [getUserDetails] returns, the returned [totalQuestsCompleted] (the
    stored per-user counter) equals the number of elements of the returned
    [completedQuestIds], which is exactly the list of completed ids found
    by scanning [1..questCounter]; and the call does return, at any time
    not before the latest block, as long as the quest counter is below the
    largest [uint256]. *)
Theorem details_total_matches_ids s t u :
  reachable s t ->
  (forall e d s', getUserDetails e u s = Ok (d, s') ->
     UserDetails.totalQuestsCompleted d
       = Z.of_nat (length (UserDetails.completedQuestIds d)) /\
     UserDetails.completedQuestIds d = completedIds s u /\
     UserDetails.totalQuestsCompleted d = totalQuestsCompleted s !!! u) /\
  (forall e, t <= block_timestamp e -> questCounter s < MAX_UINT256 ->
     exists d, getUserDetails e u s = Ok (d, s)).
Proof.
  intros Hr. split.
  - intros e d s' H.
    destruct (getUserDetails_ids _ _ _ _ _ _ Hr H) as [Hids Htot].
    destruct (getUserDetails_inv _ _ _ _ _ H) as (_ & _ & Hstored & _).
    rewrite Hids. auto.
  - intros e Hle Hc. eapply getUserDetails_reachable; eauto.
Qed.

Lemma details_total_matches_ids_witness :
  (forall e d s', getUserDetails e alice with_completion = Ok (d, s') ->
     UserDetails.totalQuestsCompleted d
       = Z.of_nat (length (UserDetails.completedQuestIds d)) /\
     UserDetails.completedQuestIds d = completedIds with_completion alice /\
     UserDetails.totalQuestsCompleted d
       = totalQuestsCompleted with_completion !!! alice) /\
  (exists d, getUserDetails (as_stranger 1600) alice with_completion
             = Ok (d, with_completion)).
Proof.
  destruct (details_total_matches_ids with_completion 1500 alice
              with_completion_reachable) as [Heq Hret].
  split; [exact Heq|].
  apply Hret; [cbn; lia | vm_compute; reflexivity].
Defined.



(** C10.  In every reachable state and for every user, whenever
    [getUserDetails] returns, the returned [completedQuestIds] is strictly
    increasing, hence free of duplicates; and the call does return, at any
    time not before the latest block, as long as the quest counter is below
    the largest [uint256]. *)
Theorem completed_ids_strictly_increasing s t u :
  reachable s t ->
  (forall e d s', getUserDetails e u s = Ok (d, s') ->
     StronglySorted Z.lt (UserDetails.completedQuestIds d) /\
     NoDup (UserDetails.completedQuestIds d)) /\
  (forall e, t <= block_timestamp e -> questCounter s < MAX_UINT256 ->
     exists d, getUserDetails e u s = Ok (d, s)).
Proof.
  intros Hr. split.
  - intros e d s' H.
    destruct (getUserDetails_ids _ _ _ _ _ _ Hr H) as [-> _].
    pose proof (completedIds_StronglySorted s u) as Hs.
    split; [exact Hs | apply StronglySorted_lt_NoDup; exact Hs].
  - intros e Hle Hc. eapply getUserDetails_reachable; eauto.
Qed.

Lemma completed_ids_strictly_increasing_witness :
  getUserDetails (as_stranger 6800) alice busy
    = Ok (UserDetails.mk [1; 3] 2 (DailyClaim.mk 5000 true) false 1800, busy) /\
  StronglySorted Z.lt [1; 3] /\
  NoDup [1; 3] /\
  (exists d, getUserDetails (as_stranger 6800) alice busy = Ok (d, busy)).
Proof.
  assert (Hd : getUserDetails (as_stranger 6800) alice busy
               = Ok (UserDetails.mk [1; 3] 2 (DailyClaim.mk 5000 true)
                                    false 1800, busy))
    by (vm_compute; reflexivity).
  destruct (completed_ids_strictly_increasing busy 5000 alice busy_reachable)
    as [Hsorted Hret].
  destruct (Hsorted (as_stranger 6800) _ busy Hd) as [Hs Hn].
  split; [exact Hd|]. split; [exact Hs|]. split; [exact Hn|].
  apply Hret; [cbn; lia | vm_compute; reflexivity].
Defined.

(** * Further properties of the contract *)

(** ** The log mirrors storage *)

Lemma completedLog_app (l1 l2 : list Event) u :
  completedLog (l1 ++ l2) u = completedLog l1 u ++ completedLog l2 u.
Proof.
  induction l1 as [|ev l1 IH]; [reflexivity|].
  destruct ev as [k ti r ed|u' q|u' a]; cbn [completedLog app]; auto.
  destruct (u' =? u); cbn [app]; rewrite IH; reflexivity.
Qed.

Lemma claimedAmounts_app (l1 l2 : list Event) :
  claimedAmounts (l1 ++ l2) = claimedAmounts l1 ++ claimedAmounts l2.
Proof.
  induction l1 as [|ev l1 IH]; [reflexivity|].
  destruct ev; cbn [claimedAmounts app]; rewrite IH; reflexivity.
Qed.

Lemma Inv2_mono s t t' : Inv2 s t -> t <= t' -> Inv2 s t'.
Proof.
  intros [] Hle. constructor; auto.
  - intros k Hk. specialize (inv2_createdAt0 k Hk). lia.
  - intros u q. destruct (inv2_progress0 u q) as [(H1 & H2 & H3)|H]; [left|right; auto].
    repeat split; try tauto; lia.
Qed.

Lemma Inv2_constructor e b a cd s :
  constructor e b a cd = Ok s -> Inv2 s (block_timestamp e).
Proof.
  unfold constructor.
  destruct (b =? 0) eqn:Hb; [discriminate|].
  destruct (0 <? a) eqn:Ha; [|discriminate].
  destruct (one_hours <=? cd); [|discriminate].
  cbn [negb]. intros [= <-].
  apply Z.eqb_neq in Hb. apply Z.ltb_lt in Ha.
  constructor;
    cbn [backendWallet dailyRewardAmount userQuests totalQuestsCompleted
         dailyClaims questCounter quests events claimCooldown
         completedLog claimedAmounts length].
  - exact Hb.
  - exact Ha.
  - intros q. rewrite !lookup_total_empty. reflexivity.
  - rewrite lookup_total_empty. reflexivity.
  - rewrite lookup_total_empty. reflexivity.
  - intros k Hk. lia.
  - intros u q. right. rewrite !lookup_total_empty. reflexivity.
  - intros u. right. rewrite lookup_total_empty. reflexivity.
  - intros u. rewrite lookup_total_empty. reflexivity.
  - intros u q. rewrite !lookup_total_empty. cbn. split; [|discriminate].
    intros H. inversion H.
  - intros u. constructor.
  - intros x H. inversion H.
Qed.

Lemma Inv2_createQuest e ti d r rq em ed s t x s' :
  Inv s t -> Inv2 s t -> t <= block_timestamp e ->
  createQuest e ti d r rq em ed s = Ok (x, s') ->
  Inv2 s' (block_timestamp e).
Proof.
  intros HI HJ Hle. rewrite createQuest_unfold.
  destruct (negb _); [discriminate|].
  destruct (negb _); [discriminate|].
  destruct (negb _); [discriminate|].
  destruct (negb _); [discriminate|].
  intros [= _ <-].
  pose proof (inv_range _ _ HI) as Hrange.
  destruct HJ as [Hb Hr Hzp Hzt Hzc Hca Hp Hcl Hlt Hlp Hnd Hla].
  constructor;
    cbn [backendWallet dailyRewardAmount userQuests totalQuestsCompleted
         dailyClaims questCounter quests events claimCooldown]; auto.
  - intros k Hk. destruct (decide (k = questCounter s + 1)) as [->|Hne].
    + rewrite lookup_total_insert_eq. cbn. lia.
    + rewrite lookup_total_insert_ne by congruence.
      assert (Hk' : 1 <= k <= questCounter s) by lia.
      specialize (Hca k Hk'). lia.
  - intros u q. destruct (Hp u q) as [(H1 & H2 & H3)|H]; [|right; exact H].
    left. pose proof (Hrange u q H1) as Hq.
    rewrite lookup_total_insert_ne by lia.
    repeat split; try tauto; lia.
  - intros u. rewrite completedLog_app. cbn [completedLog].
    rewrite app_nil_r. apply Hlt.
  - intros u q. rewrite completedLog_app. cbn [completedLog].
    rewrite app_nil_r. apply Hlp.
  - intros u. rewrite completedLog_app. cbn [completedLog].
    rewrite app_nil_r. apply Hnd.
  - intros a. rewrite claimedAmounts_app. cbn [claimedAmounts].
    rewrite app_nil_r. apply Hla.
Qed.

Lemma Inv2_completeQuestForUser e u q s t x s' :
  Inv s t -> Inv2 s t -> t <= block_timestamp e ->
  completeQuestForUser e u q s = Ok (x, s') ->
  Inv2 s' (block_timestamp e).
Proof.
  intros HI HJ Hle. rewrite completeQuestForUser_unfold.
  destruct ((0 <? q) && (q <=? questCounter s)) eqn:Hex; [|discriminate].
  destruct (Quest.isActive (quests s !!! q)); [|discriminate].
  destruct (block_timestamp e <=? Quest.endDate (quests s !!! q)) eqn:Hend;
    [|discriminate].
  destruct (authorized s e); [|discriminate].
  destruct (u =? 0) eqn:Hu; [discriminate|].
  destruct (UserProgress.completed ((userQuests s !!! u) !!! q)) eqn:Hnot;
    [discriminate|].
  destruct (totalQuestsCompleted s !!! u + 1 <=? MAX_UINT256); [|discriminate].
  cbn [negb]. intros [= _ <-].
  apply andb_true_iff in Hex as [Hq1 Hq2].
  apply Z.ltb_lt in Hq1. apply Z.leb_le in Hq2, Hend. apply Z.eqb_neq in Hu.
  destruct HJ as [Hb Hr Hzp Hzt Hzc Hca Hp Hcl Hlt Hlp Hnd Hla].
  assert (Hfresh : q ∉ completedLog (events s) u).
  { intros Hin. apply Hlp in Hin. congruence. }
  constructor;
    cbn [backendWallet dailyRewardAmount userQuests totalQuestsCompleted
         dailyClaims questCounter quests events claimCooldown]; auto.
  - intros q'. rewrite userQuests_write.
    rewrite decide_False; [apply Hzp | intros [? _]; congruence].
  - rewrite lookup_total_insert_ne by congruence. exact Hzt.
  - intros k Hk. specialize (Hca k Hk). lia.
  - intros u' q'. rewrite userQuests_write.
    destruct (decide (u' = u /\ q' = q)) as [[-> ->]|_].
    + left. cbn. assert (Hk : 1 <= q <= questCounter s) by lia.
      specialize (Hca q Hk). repeat split; lia.
    + destruct (Hp u' q') as [(H1 & H2 & H3)|H]; [left|right; exact H].
      repeat split; try tauto; lia.
  - intros u'. rewrite completedLog_app. cbn [completedLog].
    destruct (decide (u' = u)) as [->|Hne].
    + rewrite lookup_total_insert_eq, Z.eqb_refl, length_app, Hlt. cbn. lia.
    + rewrite lookup_total_insert_ne by congruence.
      replace (u =? u') with false by (symmetry; apply Z.eqb_neq; congruence).
      rewrite app_nil_r. apply Hlt.
  - intros u' q'. rewrite completedLog_app, userQuests_write. cbn [completedLog].
    destruct (decide (u' = u /\ q' = q)) as [[-> ->]|Hne].
    + rewrite Z.eqb_refl. cbn. split; [reflexivity|].
      intros _. apply elem_of_app. right. apply list_elem_of_singleton.
      reflexivity.
    + destruct (u =? u') eqn:Huu.
      * apply Z.eqb_eq in Huu. subst u'.
        rewrite elem_of_app, list_elem_of_singleton, <- Hlp.
        split; [intros [H|H]; [exact H | exfalso; apply Hne; auto] | auto].
      * rewrite app_nil_r. apply Hlp.
  - intros u'. rewrite completedLog_app. cbn [completedLog].
    destruct (u =? u') eqn:Huu.
    + apply Z.eqb_eq in Huu. subst u'. apply NoDup_app.
      split; [apply Hnd|]. split; [|apply NoDup_singleton].
      intros y Hy Hy'. apply list_elem_of_singleton in Hy'. subst y.
      contradiction.
    + rewrite app_nil_r. apply Hnd.
  - intros a. rewrite claimedAmounts_app. cbn [claimedAmounts].
    rewrite app_nil_r. apply Hla.
Qed.

Lemma Inv2_setDailyClaimed e u s t x s' :
  Inv s t -> Inv2 s t -> t <= block_timestamp e ->
  setDailyClaimed e u s = Ok (x, s') ->
  Inv2 s' (block_timestamp e).
Proof.
  intros HI HJ Hle. rewrite setDailyClaimed_unfold.
  destruct (authorized s e); [|discriminate].
  destruct (u =? 0) eqn:Hu; [discriminate|].
  destruct (_ <=? MAX_UINT256); [|discriminate].
  destruct (_ <=? block_timestamp e) eqn:Hcool; [|discriminate].
  cbn [negb]. intros [= _ <-].
  apply Z.eqb_neq in Hu. apply Z.leb_le in Hcool.
  pose proof (inv_claim _ _ HI u) as Hlast.
  destruct HJ as [Hb Hr Hzp Hzt Hzc Hca Hp Hcl Hlt Hlp Hnd Hla].
  constructor;
    cbn [backendWallet dailyRewardAmount userQuests totalQuestsCompleted
         dailyClaims questCounter quests events claimCooldown]; auto.
  - rewrite lookup_total_insert_ne by congruence. exact Hzc.
  - intros k Hk. specialize (Hca k Hk). lia.
  - intros u' q'. destruct (Hp u' q') as [(H1 & H2 & H3)|H]; [left|right; exact H].
    repeat split; try tauto; lia.
  - intros u'. destruct (decide (u' = u)) as [->|Hne].
    + left. rewrite lookup_total_insert_eq. cbn. split; [reflexivity | lia].
    + rewrite lookup_total_insert_ne by congruence. apply Hcl.
  - intros u'. rewrite completedLog_app. cbn [completedLog].
    rewrite app_nil_r. apply Hlt.
  - intros u' q'. rewrite completedLog_app. cbn [completedLog].
    rewrite app_nil_r. apply Hlp.
  - intros u'. rewrite completedLog_app. cbn [completedLog].
    rewrite app_nil_r. apply Hnd.
  - intros a. rewrite claimedAmounts_app. cbn [claimedAmounts].
    rewrite elem_of_app, list_elem_of_singleton. intros [H|H]; auto.
Qed.

Lemma reachable_Inv2 s t : reachable s t -> Inv2 s t.
Proof.
  induction 1 as [e b a cd s He Hb Ha Hcd Hc | s t e c Hr IH He Hc Hle].
  - eapply Inv2_constructor; eauto.
  - pose proof (reachable_Inv _ _ Hr) as HI.
    destruct (transact_cases e c s) as [-> | [H | [H | H]]].
    + eapply Inv2_mono; eauto.
    + destruct H as (ti & d & r & rq & em & ed & _ & H).
      eapply Inv2_createQuest; eauto.
    + destruct H as (u & q & _ & H). eapply Inv2_completeQuestForUser; eauto.
    + destruct H as (u & _ & H). eapply Inv2_setDailyClaimed; eauto.
Qed.

(** ** Reading quests back *)

Lemma getQuest_unfold q s :
  getQuest q s =
  if (0 <? q) && (q <=? questCounter s) then Ok (quests s !!! q, s)
  else Err (Revert "Quest does not exist").
Proof.
  unfold getQuest, questExists. unfold_M. cbn.
  destruct ((0 <? q) && (q <=? questCounter s)); reflexivity.
Qed.

Lemma getAllQuests_fill_spec s (n : nat) : forall (k : nat) (arr : list Quest.t),
  Z.of_nat k + Z.of_nat n <= MAX_UINT256 ->
  (k + n <= length arr)%nat ->
  getAllQuests_fill n (Z.of_nat k) arr s =
  Ok (take k arr
        ++ ((fun j => quests s !!! j) <$> seqZ (Z.of_nat k + 1) (Z.of_nat n))
        ++ drop (k + n) arr, s).
Proof.
  induction n as [|n IH]; intros k arr Hmax Hlen.
  - cbn [getAllQuests_fill]. unfold_M. rewrite seqZ_nil by (cbn; lia).
    cbn [fmap list_fmap app]. rewrite Nat.add_0_r, take_drop. reflexivity.
  - cbn [getAllQuests_fill]. unfold array_assign. unfold_M.
    replace (Z.of_nat k + 1 <=? MAX_UINT256) with true
      by (symmetry; apply Z.leb_le; lia).
    replace (Z.of_nat k <? Z.of_nat (length arr)) with true
      by (symmetry; apply Z.ltb_lt; lia).
    rewrite Nat2Z.id.
    replace (Z.of_nat k + 1) with (Z.of_nat (S k)) by lia.
    rewrite IH; [| lia | rewrite length_insert; lia].
    rewrite (take_S_r _ k (quests s !!! Z.of_nat (S k)))
      by (apply list_lookup_insert_eq; lia).
    rewrite take_insert_ge by lia.
    rewrite drop_insert_lt by lia.
    rewrite (seqZ_cons (Z.of_nat (S k)) (Z.of_nat (S n))) by lia.
    replace (Z.pred (Z.of_nat (S n))) with (Z.of_nat n) by lia.
    replace (Z.succ (Z.of_nat (S k))) with (Z.of_nat (S k) + 1) by lia.
    cbn [fmap list_fmap]. rewrite <- app_assoc. cbn [app].
    rewrite Nat.add_succ_comm. reflexivity.
Qed.

Lemma getAllQuests_spec s :
  is_uint256 (questCounter s) ->
  getAllQuests s
  = Ok ((fun j => quests s !!! j) <$> seqZ 1 (questCounter s), s).
Proof.
  intros [Hc0 Hc1]. unfold getAllQuests. unfold mbind, M_bind, gets.
  change 0 with (Z.of_nat 0) at 1.
  rewrite getAllQuests_fill_spec.
  - cbn [take app Nat.add Z.of_nat Z.add].
    rewrite drop_ge by (rewrite length_replicate; lia).
    rewrite app_nil_r, Z2Nat.id by lia. reflexivity.
  - rewrite Z2Nat.id by lia. lia.
  - rewrite length_replicate. lia.
Qed.

(** X1.  In every reachable state [getAllQuests] succeeds without touching
    storage (its loop counter stops at [questCounter], so it cannot
    overflow), and returns exactly [questCounter] quests whose ids are
    [1, 2, ..., questCounter] in this order; the element at index [i] is the
    quest that [getQuest(i + 1)] returns. *)
Theorem getAllQuests_lists_every_quest s t :
  reachable s t ->
  exists l,
    getAllQuests s = Ok (l, s) /\
    Z.of_nat (length l) = questCounter s /\
    Quest.id <$> l = seqZ 1 (questCounter s) /\
    (forall i, 0 <= i < questCounter s ->
       exists x, l !! Z.to_nat i = Some x /\ getQuest (i + 1) s = Ok (x, s)).
Proof.
  intros Hr. apply reachable_Inv in Hr.
  pose proof (inv_counter _ _ Hr) as Hc. pose proof (inv_quests _ _ Hr) as Hq.
  rewrite (getAllQuests_spec s Hc). destruct Hc as [Hc0 Hc1].
  eexists. split; [reflexivity|]. split; [|split].
  - rewrite length_fmap, length_seqZ. lia.
  - rewrite <- list_fmap_compose.
    rewrite <- (list_fmap_id (seqZ 1 (questCounter s))) at 2.
    apply list_fmap_ext. intros i k Hk.
    apply lookup_seqZ in Hk as [-> Hi]. cbn. apply Hq. lia.
  - intros i Hi. exists (quests s !!! (i + 1)). split.
    + rewrite list_lookup_fmap, lookup_seqZ_lt by lia.
      cbn. rewrite Z2Nat.id by lia. do 2 f_equal. lia.
    + rewrite getQuest_unfold.
      replace ((0 <? i + 1) && (i + 1 <=? questCounter s)) with true;
        [reflexivity|].
      symmetry. apply andb_true_iff. split; [apply Z.ltb_lt | apply Z.leb_le]; lia.
Qed.

Lemma getAllQuests_lists_every_quest_witness :
  exists l,
    getAllQuests busy = Ok (l, busy) /\
    Z.of_nat (length l) = questCounter busy /\
    Quest.id <$> l = seqZ 1 (questCounter busy) /\
    (forall i, 0 <= i < questCounter busy ->
       exists x, l !! Z.to_nat i = Some x /\ getQuest (i + 1) busy = Ok (x, busy)).
Proof.
  apply (getAllQuests_lists_every_quest busy 5000). apply busy_reachable.
Defined.

(** X2.  In every reachable state [getQuest(q)] succeeds exactly for
    [1 <= q <= questCounter] and fails with "Quest does not exist" for every
    other id, id 0 included.  A returned quest carries the requested id, is
    active, was created no later than the latest block and ends strictly
    after its creation; the call leaves storage as it was. *)
Theorem getQuest_exists_iff s t q :
  reachable s t ->
  ((exists x, getQuest q s = Ok (x, s)) <-> 1 <= q <= questCounter s) /\
  (~ 1 <= q <= questCounter s ->
   getQuest q s = Err (Revert "Quest does not exist")) /\
  (forall x s', getQuest q s = Ok (x, s') ->
     s' = s /\ Quest.id x = q /\ Quest.isActive x = true /\
     Quest.createdAt x <= t /\ Quest.createdAt x < Quest.endDate x).
Proof.
  intros Hr. pose proof (reachable_Inv _ _ Hr) as HI.
  pose proof (reachable_Inv2 _ _ Hr) as HJ.
  rewrite getQuest_unfold.
  destruct ((0 <? q) && (q <=? questCounter s)) eqn:Hex.
  - apply andb_true_iff in Hex as [H1 H2].
    apply Z.ltb_lt in H1. apply Z.leb_le in H2.
    assert (Hq : 1 <= q <= questCounter s) by lia.
    split; [split; [intros _; exact Hq | eauto]|].
    split; [intros Hn; contradiction|].
    intros x s' [= <- <-].
    destruct (inv_quests _ _ HI q Hq) as (Hid & Hact & Hlt).
    pose proof (inv2_createdAt _ _ HJ q Hq). auto.
  - assert (Hq : ~ 1 <= q <= questCounter s).
    { intros [H1 H2]. apply andb_false_iff in Hex as [H|H];
        [apply Z.ltb_ge in H | apply Z.leb_gt in H]; lia. }
    split; [split; [intros [x Hx]; discriminate | intros H; contradiction]|].
    split; [reflexivity | discriminate].
Qed.

Lemma getQuest_exists_iff_witness :
  (exists x, getQuest 2 busy = Ok (x, busy)) /\
  getQuest 0 busy = Err (Revert "Quest does not exist") /\
  getQuest 4 busy = Err (Revert "Quest does not exist").
Proof.
  split; [|split].
  - apply (proj1 (getQuest_exists_iff busy 5000 2 busy_reachable)).
    vm_compute. split; discriminate.
  - apply (proj1 (proj2 (getQuest_exists_iff busy 5000 0 busy_reachable))).
    vm_compute. intros [H _]. apply H. reflexivity.
  - apply (proj1 (proj2 (getQuest_exists_iff busy 5000 4 busy_reachable))).
    vm_compute. intros [_ H]. apply H. reflexivity.
Defined.

Lemma createQuest_post e ti d r rq em ed s s' :
  createQuest e ti d r rq em ed s = Ok (tt, s') ->
  questCounter s' = questCounter s + 1 /\
  quests s' = <[questCounter s + 1 :=
                  Quest.mk (questCounter s + 1) ti d r rq em true
                           (block_timestamp e) ed]> (quests s) /\
  block_timestamp e < ed /\ rq <> [] /\ msg_sender e = owner s /\
  questCounter s + 1 <= MAX_UINT256.
Proof.
  rewrite createQuest_unfold.
  destruct (msg_sender e =? owner s) eqn:Ho; [|discriminate].
  destruct (block_timestamp e <? ed) eqn:Hed; [|discriminate].
  destruct (0 <? Z.of_nat (length rq)) eqn:Hrq; [|discriminate].
  destruct (questCounter s + 1 <=? MAX_UINT256) eqn:Hc; [|discriminate].
  cbn [negb]. intros [= <-]. cbn [questCounter quests].
  apply Z.eqb_eq in Ho. apply Z.ltb_lt in Hed, Hrq. apply Z.leb_le in Hc.
  repeat split; auto. intros ->. cbn in Hrq. lia.
Qed.

Lemma createQuest_transact e ti d r rq em ed s s' :
  createQuest e ti d r rq em ed s = Ok (tt, s') ->
  transact e (CreateQuest ti d r rq em ed) s = s'.
Proof.
  intros H. unfold transact, dispatch, mbind, M_bind. rewrite H. reflexivity.
Qed.

(** X3.  A quest that [createQuest] has stored can be read back unchanged
    for ever: after a successful [createQuest] from a state with counter
    [n >= 0], and after any further transactions, [getQuest(n + 1)] returns
    the quest with id [n + 1], the title, description, reward,
    requirements, estimated time and end date that were passed in,
    [isActive = true] and [createdAt] the creation time. *)
Theorem created_quest_is_permanent s e ti d r rq em ed s' txs :
  0 <= questCounter s ->
  createQuest e ti d r rq em ed s = Ok (tt, s') ->
  getQuest (questCounter s + 1) (run txs s')
  = Ok (Quest.mk (questCounter s + 1) ti d r rq em true (block_timestamp e) ed,
        run txs s').
Proof.
  intros Hc H. destruct (createQuest_post _ _ _ _ _ _ _ _ _ H) as (Hn & Hq & _).
  pose proof (run_extends txs s') as Hext.
  rewrite getQuest_unfold.
  pose proof (ext_counter _ _ Hext) as Hcnt.
  replace ((0 <? questCounter s + 1)
           && (questCounter s + 1 <=? questCounter (run txs s'))) with true
    by (symmetry; apply andb_true_iff; split;
        [apply Z.ltb_lt | apply Z.leb_le]; lia).
  rewrite (ext_quests _ _ Hext) by lia.
  rewrite Hq, lookup_total_insert_eq. reflexivity.
Qed.

Lemma created_quest_is_permanent_witness :
  getQuest (questCounter genesis + 1)
    (run [ (as_backend 1500, CompleteQuestForUser alice 1);
           (as_owner 1600, CreateQuest "Another" "" 1 ["x"] 1 7000) ] with_quest)
  = Ok (Quest.mk (questCounter genesis + 1) "Quest" "First quest" 50 ["visit"] 5
                 true (block_timestamp (as_owner 1000)) 2000,
        run [ (as_backend 1500, CompleteQuestForUser alice 1);
              (as_owner 1600, CreateQuest "Another" "" 1 ["x"] 1 7000) ]
            with_quest).
Proof.
  apply (created_quest_is_permanent genesis (as_owner 1000)
           "Quest" "First quest" 50 ["visit"] 5 2000 with_quest).
  - vm_compute. discriminate.
  - vm_compute. reflexivity.
Defined.

(** X4.  A successful [createQuest] appends to what [getAllQuests] returns:
    if the call succeeds from a state whose counter is a [uint256], then
    [getAllQuests] afterwards returns the list it returned before followed
    by the new quest. *)
Theorem createQuest_appends_to_getAllQuests s e ti d r rq em ed s' :
  is_uint256 (questCounter s) ->
  createQuest e ti d r rq em ed s = Ok (tt, s') ->
  exists l,
    getAllQuests s = Ok (l, s) /\
    getAllQuests s'
    = Ok (l ++ [Quest.mk (questCounter s + 1) ti d r rq em true
                         (block_timestamp e) ed], s').
Proof.
  intros Hc H.
  destruct (createQuest_post _ _ _ _ _ _ _ _ _ H) as (Hn & Hq & _ & _ & _ & Hmax).
  destruct Hc as [Hc0 Hc1].
  rewrite (getAllQuests_spec s) by (split; lia).
  rewrite (getAllQuests_spec s') by (rewrite Hn; split; lia).
  eexists. split; [reflexivity|].
  rewrite Hn, seqZ_snoc, fmap_app by lia. cbn [fmap list_fmap].
  rewrite Hq, lookup_total_insert_eq. do 3 f_equal.
  apply list_fmap_ext. intros i k Hk.
  apply lookup_seqZ in Hk as [-> Hi].
  rewrite lookup_total_insert_ne by lia. reflexivity.
Qed.

Lemma createQuest_appends_to_getAllQuests_witness :
  exists l,
    getAllQuests with_quest = Ok (l, with_quest) /\
    getAllQuests (transact (as_owner 1000)
                    (CreateQuest "Second" "" 20 ["a"; "b"] 10 9000) with_quest)
    = Ok (l ++ [Quest.mk (questCounter with_quest + 1) "Second" "" 20 ["a"; "b"]
                         10 true (block_timestamp (as_owner 1000)) 9000],
          transact (as_owner 1000)
            (CreateQuest "Second" "" 20 ["a"; "b"] 10 9000) with_quest).
Proof.
  apply createQuest_appends_to_getAllQuests.
  - in_range.
  - vm_compute. reflexivity.
Defined.

(** X5.  In every reachable state [getTotalQuests] returns the number of
    [QuestCreated] events emitted so far, which is also the number of
    quests [getAllQuests] returns. *)
Theorem getTotalQuests_counts_created s t :
  reachable s t ->
  exists l,
    getAllQuests s = Ok (l, s) /\
    getTotalQuests s = Ok (Z.of_nat (length l), s) /\
    length (createdIds (events s)) = length l.
Proof.
  intros Hr. apply reachable_Inv in Hr.
  pose proof (inv_counter _ _ Hr) as Hc.
  rewrite (getAllQuests_spec s Hc), (inv_created _ _ Hr).
  destruct Hc as [Hc0 Hc1].
  eexists. split; [reflexivity|].
  rewrite length_fmap, length_seqZ. split; [|reflexivity].
  unfold getTotalQuests, gets. rewrite Z2Nat.id by lia. reflexivity.
Qed.

Lemma getTotalQuests_counts_created_witness :
  exists l,
    getAllQuests busy = Ok (l, busy) /\
    getTotalQuests busy = Ok (Z.of_nat (length l), busy) /\
    length (createdIds (events busy)) = length l.
Proof.
  apply (getTotalQuests_counts_created busy 5000). apply busy_reachable.
Defined.

(** ** Configuration, the zero address and recorded times *)

Lemma same_config_refl s : same_config s s.
Proof. repeat split. Qed.

Lemma same_config_trans s1 s2 s3 :
  same_config s1 s2 -> same_config s2 s3 -> same_config s1 s3.
Proof.
  intros (H1 & H2 & H3 & H4) (H1' & H2' & H3' & H4').
  repeat split; congruence.
Qed.

Lemma transact_same_config e c s : same_config s (transact e c s).
Proof.
  destruct (transact_cases e c s) as [-> | [H | [H | H]]].
  - apply same_config_refl.
  - destruct H as (ti & d & r & rq & em & ed & _ & H).
    rewrite createQuest_unfold in H.
    repeat (destruct (negb _); [discriminate|]).
    injection H as <-. repeat split.
  - destruct H as (u & q & _ & H).
    rewrite completeQuestForUser_unfold in H.
    repeat (destruct (negb _); [discriminate|]).
    destruct (u =? 0); [discriminate|].
    destruct (UserProgress.completed _); [discriminate|].
    destruct (negb _); [discriminate|].
    injection H as <-. repeat split.
  - destruct H as (u & _ & H).
    rewrite setDailyClaimed_unfold in H.
    destruct (negb _); [discriminate|].
    destruct (u =? 0); [discriminate|].
    repeat (destruct (negb _); [discriminate|]).
    injection H as <-. repeat split.
Qed.

Lemma run_same_config txs : forall s, same_config s (run txs s).
Proof.
  induction txs as [|[e c] txs IH]; intros s; cbn [run].
  - apply same_config_refl.
  - eapply same_config_trans; [apply transact_same_config | apply IH].
Qed.

(** X6.  The deployment parameters are sane and fixed: in every reachable
    state the backend wallet is not the zero address, the daily reward
    amount is positive and the cooldown is at least one hour, and no
    sequence of transactions changes the owner, the backend wallet, the
    daily reward amount or the cooldown. *)
Theorem configuration_is_fixed s t txs :
  reachable s t ->
  backendWallet s <> 0 /\
  0 < dailyRewardAmount s /\
  one_hours <= claimCooldown s <= MAX_UINT256 /\
  same_config s (run txs s).
Proof.
  intros Hr. pose proof (reachable_Inv _ _ Hr) as HI.
  pose proof (reachable_Inv2 _ _ Hr) as HJ.
  split; [apply (inv2_backend _ _ HJ)|].
  split; [apply (inv2_reward _ _ HJ)|].
  split; [apply (inv_cooldown _ _ HI) | apply run_same_config].
Qed.

Lemma configuration_is_fixed_witness :
  backendWallet with_quest <> 0 /\
  0 < dailyRewardAmount with_quest /\
  one_hours <= claimCooldown with_quest <= MAX_UINT256 /\
  same_config with_quest
    (run [ (as_backend 1500, CompleteQuestForUser alice 1);
           (as_backend 5000, SetDailyClaimed alice) ] with_quest).
Proof.
  apply (configuration_is_fixed with_quest 1000). apply with_quest_reachable.
Defined.

(** X7.  The zero address never owns anything: in every reachable state
    its progress records, its completed-quests counter and its daily-claim
    record are all zero, and any [completeQuestForUser] or
    [setDailyClaimed] for it fails, whoever calls and whenever. *)
Theorem zero_address_owns_nothing s t :
  reachable s t ->
  (forall q, (userQuests s !!! 0) !!! q = UserProgress.zero) /\
  totalQuestsCompleted s !!! 0 = 0 /\
  dailyClaims s !!! 0 = DailyClaim.zero /\
  (forall e q, exists f, completeQuestForUser e 0 q s = Err f) /\
  (forall e, exists f, setDailyClaimed e 0 s = Err f).
Proof.
  intros Hr. pose proof (reachable_Inv2 _ _ Hr) as HJ.
  split; [apply (inv2_zero_progress _ _ HJ)|].
  split; [apply (inv2_zero_total _ _ HJ)|].
  split; [apply (inv2_zero_claim _ _ HJ)|].
  split.
  - intros e q. rewrite completeQuestForUser_unfold. cbn [Z.eqb].
    repeat (destruct (negb _); [eauto|]). eauto.
  - intros e. rewrite setDailyClaimed_unfold. cbn [Z.eqb].
    destruct (negb _); eauto.
Qed.

Lemma zero_address_owns_nothing_witness :
  totalQuestsCompleted busy !!! 0 = 0 /\
  dailyClaims busy !!! 0 = DailyClaim.zero /\
  (exists f, completeQuestForUser (as_backend 1500) 0 2 busy = Err f).
Proof.
  destruct (zero_address_owns_nothing busy 5000 busy_reachable)
    as (_ & Ht & Hd & Hc & _).
  split; [exact Ht|]. split; [exact Hd|]. apply Hc.
Defined.

(** X8.  In every reachable state a progress record is either all zero or
    a completion: then its quest exists, its user is not the zero address,
    and [completedAt] lies between the quest's [createdAt] and its
    [endDate] and is not later than the latest block. *)
Theorem completion_time_within_quest_window s t u q :
  reachable s t ->
  (UserProgress.completed ((userQuests s !!! u) !!! q) = true ->
   u <> 0 /\ 1 <= q <= questCounter s /\
   Quest.createdAt (quests s !!! q)
     <= UserProgress.completedAt ((userQuests s !!! u) !!! q)
     <= Quest.endDate (quests s !!! q) /\
   UserProgress.completedAt ((userQuests s !!! u) !!! q) <= t) /\
  (UserProgress.completed ((userQuests s !!! u) !!! q) = false ->
   (userQuests s !!! u) !!! q = UserProgress.zero).
Proof.
  intros Hr. pose proof (reachable_Inv _ _ Hr) as HI.
  pose proof (reachable_Inv2 _ _ Hr) as HJ.
  destruct (inv2_progress _ _ HJ u q) as [(H1 & H2 & H3)|H0].
  - split; [|congruence]. intros _.
    split.
    { intros ->. rewrite (inv2_zero_progress _ _ HJ q) in H1. discriminate. }
    split; [apply (inv_range _ _ HI u q H1)|]. auto.
  - split; [|auto]. rewrite H0. discriminate.
Qed.

Lemma completion_time_within_quest_window_witness :
  alice <> 0 /\ 1 <= 3 <= questCounter busy /\
  Quest.createdAt (quests busy !!! 3)
    <= UserProgress.completedAt ((userQuests busy !!! alice) !!! 3)
    <= Quest.endDate (quests busy !!! 3) /\
  UserProgress.completedAt ((userQuests busy !!! alice) !!! 3) <= 5000.
Proof.
  apply (proj1 (completion_time_within_quest_window busy 5000 alice 3
                  busy_reachable)).
  vm_compute. reflexivity.
Defined.

(** X9.  The [claimed] flag mirrors "has claimed at least once": in every
    reachable state a daily-claim record is either all zero, or it has
    [claimed = true] and a [lastClaimTime] that is at least the cooldown
    (hence not the never-claimed value 0) and not later than the latest
    block. *)
Theorem claimed_flag_mirrors_last_claim s t u :
  reachable s t ->
  (DailyClaim.claimed (dailyClaims s !!! u) = true <->
   DailyClaim.lastClaimTime (dailyClaims s !!! u) <> 0) /\
  (DailyClaim.claimed (dailyClaims s !!! u) = true ->
   u <> 0 /\
   claimCooldown s <= DailyClaim.lastClaimTime (dailyClaims s !!! u) <= t) /\
  (DailyClaim.claimed (dailyClaims s !!! u) = false ->
   dailyClaims s !!! u = DailyClaim.zero).
Proof.
  intros Hr. pose proof (reachable_Inv _ _ Hr) as HI.
  pose proof (reachable_Inv2 _ _ Hr) as HJ.
  pose proof (inv_cooldown _ _ HI) as Hcd. unfold one_hours in Hcd.
  pose proof (inv_claim _ _ HI u) as Hlast.
  destruct (inv2_claimed _ _ HJ u) as [[Hc Hl]|H0].
  - split; [split; [intros _; lia | auto]|].
    split; [|congruence]. intros _. split; [|lia].
    intros ->. rewrite (inv2_zero_claim _ _ HJ) in Hc. discriminate.
  - rewrite H0. cbn. split; [split; [discriminate | intros H; congruence]|].
    split; [discriminate | reflexivity].
Qed.

Lemma claimed_flag_mirrors_last_claim_witness :
  alice <> 0 /\
  claimCooldown busy <= DailyClaim.lastClaimTime (dailyClaims busy !!! alice)
    <= 5000.
Proof.
  apply (proj1 (proj2 (claimed_flag_mirrors_last_claim busy 5000 alice
                         busy_reachable))).
  vm_compute. reflexivity.
Defined.

Lemma completedIds_elem s t u q :
  Inv s t ->
  q ∈ completedIds s u <->
  UserProgress.completed ((userQuests s !!! u) !!! q) = true.
Proof.
  intros HI. unfold completedIds, completedBy.
  rewrite list_elem_of_In, List.filter_In, <- list_elem_of_In, elem_of_seqZ.
  split; [tauto|]. intros H. split; [|exact H].
  pose proof (inv_range _ _ HI u q H). lia.
Qed.

(** X10.  The event log mirrors storage: in every reachable state the
    quest ids of the [QuestCompleted] events logged for a user are pairwise
    distinct, are (up to order) exactly the completed ids that the scan of
    [getUserDetails] finds, and their number is the user's
    [totalQuestsCompleted]; every [DailyClaimed] event carries the
    configured daily reward amount. *)
Theorem log_mirrors_storage s t u :
  reachable s t ->
  NoDup (completedLog (events s) u) /\
  completedLog (events s) u ≡ₚ completedIds s u /\
  totalQuestsCompleted s !!! u = Z.of_nat (length (completedLog (events s) u)) /\
  (forall a, a ∈ claimedAmounts (events s) -> a = dailyRewardAmount s).
Proof.
  intros Hr. pose proof (reachable_Inv _ _ Hr) as HI.
  pose proof (reachable_Inv2 _ _ Hr) as HJ.
  split; [apply (inv2_log_nodup _ _ HJ)|].
  split; [|split; [apply (inv2_log_total _ _ HJ) | apply (inv2_log_amounts _ _ HJ)]].
  apply NoDup_Permutation.
  - apply (inv2_log_nodup _ _ HJ).
  - apply StronglySorted_lt_NoDup, completedIds_StronglySorted.
  - intros q. rewrite (inv2_log_progress _ _ HJ), (completedIds_elem s t u q HI).
    reflexivity.
Qed.

Lemma log_mirrors_storage_witness :
  NoDup (completedLog (events busy) alice) /\
  completedLog (events busy) alice ≡ₚ completedIds busy alice /\
  totalQuestsCompleted busy !!! alice
    = Z.of_nat (length (completedLog (events busy) alice)) /\
  (forall a, a ∈ claimedAmounts (events busy) -> a = dailyRewardAmount busy).
Proof.
  apply (log_mirrors_storage busy 5000). apply busy_reachable.
Defined.

(** ** When the mutations go through *)

Lemma total_below_counter s t u q :
  Inv s t -> 1 <= q <= questCounter s ->
  UserProgress.completed ((userQuests s !!! u) !!! q) = false ->
  totalQuestsCompleted s !!! u < questCounter s.
Proof.
  intros HI Hq Hnot. rewrite (inv_total _ _ HI). unfold completedIds.
  pose proof (List.filter_length (completedBy s u) (seqZ 1 (questCounter s)))
    as Hsplit.
  rewrite length_seqZ in Hsplit.
  assert (Hin : q ∈ List.filter (fun x => negb (completedBy s u x))
                      (seqZ 1 (questCounter s))).
  { apply list_elem_of_In, List.filter_In. split.
    - apply list_elem_of_In, elem_of_seqZ. lia.
    - unfold completedBy. rewrite Hnot. reflexivity. }
  destruct (List.filter (fun x => negb (completedBy s u x))
              (seqZ 1 (questCounter s))) as [|y l]; [inversion Hin|].
  cbn [length] in Hsplit. lia.
Qed.

(** X11.  In every reachable state [completeQuestForUser] succeeds exactly
    when the quest exists, the block time is not past its end date, the
    caller is the owner or the backend, the user is not the zero address
    and the user has not completed the quest yet.  When it fails it fails
    with one of its [require] messages other than "Quest is not active"
    (no quest is ever deactivated), never with a panic: the per-user
    counter cannot overflow. *)
Theorem completeQuestForUser_succeeds_iff s t e u q :
  reachable s t ->
  ((exists s', completeQuestForUser e u q s = Ok (tt, s')) <->
   1 <= q <= questCounter s /\
   block_timestamp e <= Quest.endDate (quests s !!! q) /\
   authorized s e = true /\ u <> 0 /\
   UserProgress.completed ((userQuests s !!! u) !!! q) = false) /\
  (forall f, completeQuestForUser e u q s = Err f ->
     exists msg, f = Revert msg /\ msg <> "Quest is not active").
Proof.
  intros Hr. pose proof (reachable_Inv _ _ Hr) as HI.
  pose proof (inv_counter _ _ HI) as [Hc0 Hc1].
  rewrite completeQuestForUser_unfold.
  destruct ((0 <? q) && (q <=? questCounter s)) eqn:Hex; cbn [negb].
  2:{ split.
      - split; [intros [s' H]; discriminate|].
        intros ([H1 H2] & _). apply andb_false_iff in Hex as [H|H];
          [apply Z.ltb_ge in H | apply Z.leb_gt in H]; lia.
      - intros f [= <-]. eexists. split; [reflexivity | discriminate]. }
  apply andb_true_iff in Hex as [Hq1 Hq2].
  apply Z.ltb_lt in Hq1. apply Z.leb_le in Hq2.
  assert (Hq : 1 <= q <= questCounter s) by lia.
  destruct (inv_quests _ _ HI q Hq) as (_ & Hact & _). rewrite Hact. cbn [negb].
  destruct (block_timestamp e <=? Quest.endDate (quests s !!! q)) eqn:Hend;
    cbn [negb].
  2:{ apply Z.leb_gt in Hend. split.
      - split; [intros [s' H]; discriminate | intros (_ & H & _); lia].
      - intros f [= <-]. eexists. split; [reflexivity | discriminate]. }
  apply Z.leb_le in Hend.
  destruct (authorized s e) eqn:Hauth; cbn [negb].
  2:{ split.
      - split; [intros [s' H]; discriminate | intros (_ & _ & H & _); discriminate].
      - intros f [= <-]. eexists. split; [reflexivity | discriminate]. }
  destruct (u =? 0) eqn:Hu.
  { apply Z.eqb_eq in Hu. split.
    - split; [intros [s' H]; discriminate | intros (_ & _ & _ & H & _); contradiction].
    - intros f [= <-]. eexists. split; [reflexivity | discriminate]. }
  apply Z.eqb_neq in Hu.
  destruct (UserProgress.completed ((userQuests s !!! u) !!! q)) eqn:Hnot.
  { split.
    - split; [intros [s' H]; discriminate | intros (_ & _ & _ & _ & H); discriminate].
    - intros f [= <-]. eexists. split; [reflexivity | discriminate]. }
  pose proof (total_below_counter s t u q HI Hq Hnot) as Hlt.
  replace (totalQuestsCompleted s !!! u + 1 <=? MAX_UINT256) with true
    by (symmetry; apply Z.leb_le; lia).
  cbn [negb]. split; [|discriminate].
  split; [intros _; auto | eauto].
Qed.

Lemma completeQuestForUser_succeeds_iff_witness :
  exists s', completeQuestForUser (as_owner 6000) alice 2 busy = Ok (tt, s').
Proof.
  apply (proj1 (completeQuestForUser_succeeds_iff busy 5000 (as_owner 6000)
                  alice 2 busy_reachable)).
  vm_compute. repeat split; congruence.
Defined.

Lemma transact_lastClaim_mono e c s u :
  0 <= claimCooldown s ->
  DailyClaim.lastClaimTime (dailyClaims s !!! u)
  <= DailyClaim.lastClaimTime (dailyClaims (transact e c s) !!! u).
Proof.
  intros Hcd. destruct (transact_cases e c s) as [-> | [H | [H | H]]].
  - lia.
  - destruct H as (ti & d & r & rq & em & ed & _ & H).
    rewrite createQuest_unfold in H.
    repeat (destruct (negb _); [discriminate|]).
    injection H as <-. cbn [dailyClaims]. lia.
  - destruct H as (u' & q & _ & H).
    rewrite completeQuestForUser_unfold in H.
    repeat (destruct (negb _); [discriminate|]).
    destruct (u' =? 0); [discriminate|].
    destruct (UserProgress.completed _); [discriminate|].
    destruct (negb _); [discriminate|].
    injection H as <-. cbn [dailyClaims]. lia.
  - destruct H as (u' & _ & H).
    rewrite setDailyClaimed_unfold in H.
    destruct (negb _); [discriminate|].
    destruct (u' =? 0); [discriminate|].
    destruct (negb _); [discriminate|].
    destruct (_ <=? block_timestamp e) eqn:Hle; [|discriminate].
    cbn [negb] in H. injection H as <-. cbn [dailyClaims].
    apply Z.leb_le in Hle.
    destruct (decide (u = u')) as [->|Hne].
    + rewrite lookup_total_insert_eq. cbn. lia.
    + rewrite lookup_total_insert_ne by congruence. lia.
Qed.

Lemma run_lastClaim_mono txs u : forall s,
  0 <= claimCooldown s ->
  DailyClaim.lastClaimTime (dailyClaims s !!! u)
  <= DailyClaim.lastClaimTime (dailyClaims (run txs s) !!! u).
Proof.
  induction txs as [|[e c] txs IH]; intros s Hcd; cbn [run]; [lia|].
  pose proof (transact_lastClaim_mono e c s u Hcd) as H1.
  destruct (transact_same_config e c s) as (_ & _ & _ & Hsame).
  specialize (IH (transact e c s)). rewrite Hsame in IH.
  specialize (IH Hcd). lia.
Qed.

(** X12.  Two successful daily claims for the same user are at least one
    cooldown apart, whatever else happens in between: if
    [setDailyClaimed] succeeds for a user at time [t1] and, after any
    further transactions, succeeds again for that user at time [t2], then
    [t1 + claimCooldown <= t2] (for a non-negative cooldown, as every
    deployed contract has). *)
Theorem claims_are_a_cooldown_apart s e1 u s1 txs e2 s2 :
  0 <= claimCooldown s ->
  setDailyClaimed e1 u s = Ok (tt, s1) ->
  setDailyClaimed e2 u (run txs s1) = Ok (tt, s2) ->
  block_timestamp e1 + claimCooldown s <= block_timestamp e2.
Proof.
  intros Hcd H1 H2.
  pose proof (setDailyClaimed_transact _ _ _ _ H1) as Htr.
  destruct (transact_same_config e1 (SetDailyClaimed u) s) as (_ & _ & _ & Hc1).
  rewrite Htr in Hc1.
  destruct (run_same_config txs s1) as (_ & _ & _ & Hc2).
  assert (Hlast1 : DailyClaim.lastClaimTime (dailyClaims s1 !!! u)
                   = block_timestamp e1).
  { rewrite setDailyClaimed_unfold in H1.
    destruct (negb _); [discriminate|].
    destruct (u =? 0); [discriminate|].
    repeat (destruct (negb _); [discriminate|]).
    injection H1 as <-. cbn [dailyClaims].
    rewrite lookup_total_insert_eq. reflexivity. }
  pose proof (run_lastClaim_mono txs u s1) as Hmono.
  rewrite Hc1, Hlast1 in Hmono. specialize (Hmono Hcd).
  rewrite setDailyClaimed_unfold in H2.
  destruct (negb _); [discriminate|].
  destruct (u =? 0); [discriminate|].
  destruct (negb _); [discriminate|].
  destruct (_ <=? block_timestamp e2) eqn:Hle; [|discriminate].
  apply Z.leb_le in Hle. rewrite Hc2, Hc1 in Hle. lia.
Qed.

Lemma claims_are_a_cooldown_apart_witness :
  block_timestamp (as_backend 5000) + claimCooldown with_quest
  <= block_timestamp (as_owner 9000).
Proof.
  apply (claims_are_a_cooldown_apart with_quest (as_backend 5000) alice
           (transact (as_backend 5000) (SetDailyClaimed alice) with_quest)
           [ (as_backend 5100, CompleteQuestForUser alice 1);
             (as_backend 6000, SetDailyClaimed 8) ]
           (as_owner 9000)
           (transact (as_owner 9000) (SetDailyClaimed alice)
              (run [ (as_backend 5100, CompleteQuestForUser alice 1);
                     (as_backend 6000, SetDailyClaimed 8) ]
                 (transact (as_backend 5000) (SetDailyClaimed alice)
                    with_quest)))).
  - vm_compute. discriminate.
  - vm_compute. reflexivity.
  - vm_compute. reflexivity.
Defined.

(** ** The view and the mutations agree *)

(** X13.  For a user who has claimed before ([lastClaimTime <> 0]) the
    view and the mutation agree: whenever [getUserDetails] returns at some
    block time, its [canClaimDaily] is [true] exactly when
    [setDailyClaimed] for that user, sent at the same time by the owner or
    the backend, succeeds. *)
Theorem canClaimDaily_agrees_with_setDailyClaimed s e u d s' caller :
  getUserDetails e u s = Ok (d, s') ->
  DailyClaim.lastClaimTime (dailyClaims s !!! u) <> 0 ->
  u <> 0 ->
  is_uint256 (block_timestamp e) ->
  authorized s (mkEnv caller (block_timestamp e)) = true ->
  (UserDetails.canClaimDaily d = true <->
   exists s2,
     setDailyClaimed (mkEnv caller (block_timestamp e)) u s = Ok (tt, s2)).
Proof.
  intros H Hlast Hu [_ Hmax] Hauth.
  destruct (getUserDetails_inv _ _ _ _ _ H) as (_ & _ & _ & _ & _ & H2 & H3).
  rewrite setDailyClaimed_unfold, Hauth. apply Z.eqb_neq in Hu. rewrite Hu.
  cbn [negb block_timestamp].
  destruct (Z_le_gt_dec (claimCooldown s)
              (block_timestamp e
               - DailyClaim.lastClaimTime (dailyClaims s !!! u))) as [Hge|Hlt].
  - destruct (H2 Hlast Hge) as [-> _].
    replace (_ <=? MAX_UINT256) with true by (symmetry; apply Z.leb_le; lia).
    replace (_ <=? block_timestamp e) with true
      by (symmetry; apply Z.leb_le; lia).
    cbn [negb]. split; eauto.
  - destruct (H3 Hlast ltac:(lia)) as [-> _].
    split; [discriminate|]. intros [s2 Hs2]. exfalso.
    destruct (_ <=? MAX_UINT256); cbn [negb] in Hs2; [|discriminate].
    replace (_ <=? block_timestamp e) with false in Hs2
      by (symmetry; apply Z.leb_gt; lia).
    discriminate.
Qed.

Lemma canClaimDaily_agrees_with_setDailyClaimed_witness :
  UserDetails.canClaimDaily
    (UserDetails.mk [1; 3] 2 (DailyClaim.mk 5000 true) false 1800) = true <->
  exists s2, setDailyClaimed (mkEnv 2 (block_timestamp (as_stranger 6800)))
               alice busy = Ok (tt, s2).
Proof.
  apply (canClaimDaily_agrees_with_setDailyClaimed busy (as_stranger 6800)
           alice _ busy 2).
  - vm_compute. reflexivity.
  - vm_compute. discriminate.
  - discriminate.
  - in_range.
  - vm_compute. reflexivity.
Defined.

(** X14.  The countdown is exact: when [getUserDetails] returns at time
    [now] with [canClaimDaily = false], a [setDailyClaimed] for that user
    by the owner or the backend at a time [t] succeeds exactly when
    [t >= now + timeUntilNextClaim]. *)
Theorem timeUntilNextClaim_is_exact s e u d s' e2 :
  getUserDetails e u s = Ok (d, s') ->
  UserDetails.canClaimDaily d = false ->
  u <> 0 ->
  is_uint256 (block_timestamp e2) ->
  authorized s e2 = true ->
  ((exists s2, setDailyClaimed e2 u s = Ok (tt, s2)) <->
   block_timestamp e + UserDetails.timeUntilNextClaim d <= block_timestamp e2).
Proof.
  intros H Hcan Hu [_ Hmax] Hauth.
  destruct (getUserDetails_inv _ _ _ _ _ H) as (_ & _ & _ & _ & H1 & H2 & H3).
  assert (Hlast : DailyClaim.lastClaimTime (dailyClaims s !!! u) <> 0).
  { intros H0. destruct (H1 H0) as [Ht _]. congruence. }
  assert (Hlt : block_timestamp e
                - DailyClaim.lastClaimTime (dailyClaims s !!! u)
                < claimCooldown s).
  { destruct (Z_le_gt_dec (claimCooldown s)
                (block_timestamp e
                 - DailyClaim.lastClaimTime (dailyClaims s !!! u)))
      as [Hge|Hgt]; [|lia].
    destruct (H2 Hlast Hge) as [Ht _]. congruence. }
  destruct (H3 Hlast Hlt) as [_ ->].
  rewrite setDailyClaimed_unfold, Hauth. apply Z.eqb_neq in Hu. rewrite Hu.
  cbn [negb].
  destruct (_ <=? MAX_UINT256) eqn:Hfit; cbn [negb].
  - destruct (_ <=? block_timestamp e2) eqn:Hle; cbn [negb].
    + apply Z.leb_le in Hle. split; [intros _; lia | eauto].
    + apply Z.leb_gt in Hle. split; [intros [s2 Hs2]; discriminate | lia].
  - apply Z.leb_gt in Hfit. split; [intros [s2 Hs2]; discriminate | lia].
Qed.

Lemma timeUntilNextClaim_is_exact_witness :
  (exists s2, setDailyClaimed (as_backend 8600) alice busy = Ok (tt, s2)) <->
  block_timestamp (as_stranger 6800)
  + UserDetails.timeUntilNextClaim
      (UserDetails.mk [1; 3] 2 (DailyClaim.mk 5000 true) false 1800)
  <= block_timestamp (as_backend 8600).
Proof.
  apply (timeUntilNextClaim_is_exact busy (as_stranger 6800) alice _ busy
           (as_backend 8600)).
  - vm_compute. reflexivity.
  - reflexivity.
  - discriminate.
  - in_range.
  - vm_compute. reflexivity.
Defined.

(** X15.  In every reachable state the ids that a returned
    [getUserDetails] lists are exactly the quests the user has completed:
    [q] is in [completedQuestIds] if and only if
    [userQuests[user][q].completed], and every listed id is an existing
    quest id. *)
Theorem details_list_exactly_the_completed s t e u d s' q :
  reachable s t ->
  getUserDetails e u s = Ok (d, s') ->
  (q ∈ UserDetails.completedQuestIds d <->
   UserProgress.completed ((userQuests s !!! u) !!! q) = true) /\
  (q ∈ UserDetails.completedQuestIds d -> 1 <= q <= questCounter s).
Proof.
  intros Hr H. pose proof (reachable_Inv _ _ Hr) as HI.
  destruct (getUserDetails_ids _ _ _ _ _ _ Hr H) as [-> _].
  split; [apply (completedIds_elem s t u q HI)|].
  intros Hin. apply (completedIds_elem s t u q HI) in Hin.
  apply (inv_range _ _ HI u q Hin).
Qed.

Lemma details_list_exactly_the_completed_witness :
  (3 ∈ UserDetails.completedQuestIds
         (UserDetails.mk [1; 3] 2 (DailyClaim.mk 5000 true) false 1800) <->
   UserProgress.completed ((userQuests busy !!! alice) !!! 3) = true) /\
  (3 ∈ UserDetails.completedQuestIds
         (UserDetails.mk [1; 3] 2 (DailyClaim.mk 5000 true) false 1800) ->
   1 <= 3 <= questCounter busy).
Proof.
  apply (details_list_exactly_the_completed busy 5000 (as_stranger 6800)
           alice _ busy 3 busy_reachable).
  vm_compute. reflexivity.
Defined.

(** ** How a mutation shows in the views *)

Lemma completeQuestForUser_post e u q s s1 :
  completeQuestForUser e u q s = Ok (tt, s1) ->
  u <> 0 /\
  UserProgress.completed ((userQuests s !!! u) !!! q) = false /\
  questCounter s1 = questCounter s /\
  claimCooldown s1 = claimCooldown s /\
  dailyClaims s1 = dailyClaims s /\
  userQuests s1 = <[u := <[q := UserProgress.mk true (block_timestamp e)]>
                           (userQuests s !!! u)]> (userQuests s) /\
  totalQuestsCompleted s1
    = <[u := totalQuestsCompleted s !!! u + 1]> (totalQuestsCompleted s).
Proof.
  rewrite completeQuestForUser_unfold.
  repeat (destruct (negb _); [discriminate|]).
  destruct (u =? 0) eqn:Hu; [discriminate|].
  destruct (UserProgress.completed _) eqn:Hnot; [discriminate|].
  destruct (negb _); [discriminate|].
  intros [= <-]. apply Z.eqb_neq in Hu. repeat split; auto.
Qed.

Lemma setDailyClaimed_post e u s s1 :
  setDailyClaimed e u s = Ok (tt, s1) ->
  u <> 0 /\
  questCounter s1 = questCounter s /\
  claimCooldown s1 = claimCooldown s /\
  userQuests s1 = userQuests s /\
  totalQuestsCompleted s1 = totalQuestsCompleted s /\
  dailyClaims s1 = <[u := DailyClaim.mk (block_timestamp e) true]> (dailyClaims s).
Proof.
  rewrite setDailyClaimed_unfold.
  destruct (negb _); [discriminate|].
  destruct (u =? 0) eqn:Hu; [discriminate|].
  repeat (destruct (negb _); [discriminate|]).
  intros [= <-]. apply Z.eqb_neq in Hu. repeat split; auto.
Qed.

Lemma getUserDetails_ids_Inv e u s t d s' :
  Inv s t ->
  getUserDetails e u s = Ok (d, s') ->
  UserDetails.completedQuestIds d = completedIds s u /\
  UserDetails.totalQuestsCompleted d = totalQuestsCompleted s !!! u.
Proof.
  intros HI H.
  pose proof (inv_counter _ _ HI) as Hcnt. unfold is_uint256 in Hcnt.
  pose proof (getUserDetails_Ok_counter _ _ _ _ _ Hcnt H) as Hc.
  destruct (getUserDetails_inv _ _ _ _ _ H) as (_ & (r & Hscan & Hids) & Htot & _).
  rewrite scan_from_start in Hscan by (lia || apply (inv_total _ _ HI)).
  injection Hscan as <-. cbn in Hids. auto.
Qed.

(** X16.  A completion shows in the user's view at once: after a
    successful [completeQuestForUser] for user [u] and quest [q] in a
    reachable state, every view [getUserDetails] returns for [u] has
    [totalQuestsCompleted] one higher than the stored counter was, and
    lists exactly the ids completed before together with [q], which was not
    among them. *)
Theorem completion_shows_in_details s t e u q s1 :
  reachable s t ->
  t <= block_timestamp e -> is_uint256 (block_timestamp e) ->
  completeQuestForUser e u q s = Ok (tt, s1) ->
  (q ∉ completedIds s u) /\
  (forall e' d s2, getUserDetails e' u s1 = Ok (d, s2) ->
     UserDetails.totalQuestsCompleted d = totalQuestsCompleted s !!! u + 1 /\
     (forall x, x ∈ UserDetails.completedQuestIds d <->
                x = q \/ x ∈ completedIds s u)).
Proof.
  intros Hr Hle Hnow H. pose proof (reachable_Inv _ _ Hr) as HI.
  pose proof (Inv_completeQuestForUser _ _ _ _ _ _ _ HI Hle Hnow H) as HI1.
  destruct (completeQuestForUser_post _ _ _ _ _ H)
    as (Hu & Hnot & _ & _ & _ & Hq & Ht).
  split.
  { rewrite (completedIds_elem s t u q HI). congruence. }
  intros e' d s2 Hd.
  destruct (getUserDetails_ids_Inv _ _ _ _ _ _ HI1 Hd) as [-> ->].
  split; [rewrite Ht; apply lookup_total_insert_eq|].
  intros x. rewrite (completedIds_elem s1 _ u x HI1),
    (completedIds_elem s t u x HI), Hq, userQuests_write.
  destruct (decide (u = u /\ x = q)) as [[_ ->]|Hne]; cbn.
  - split; auto.
  - split; [auto|]. intros [->|Hx]; [exfalso; apply Hne; auto | exact Hx].
Qed.

Lemma completion_shows_in_details_witness :
  (1 ∉ completedIds with_quest alice) /\
  (forall e' d s2, getUserDetails e' alice with_completion = Ok (d, s2) ->
     UserDetails.totalQuestsCompleted d
       = totalQuestsCompleted with_quest !!! alice + 1 /\
     (forall x, x ∈ UserDetails.completedQuestIds d <->
                x = 1 \/ x ∈ completedIds with_quest alice)).
Proof.
  apply (completion_shows_in_details with_quest 1000 (as_backend 1500) alice 1
           with_completion with_quest_reachable).
  - cbn. lia.
  - in_range.
  - vm_compute. reflexivity.
Defined.

Lemma scan_ext s1 s2 u (n : nat) :
  userQuests s1 !!! u = userQuests s2 !!! u ->
  forall i arr idx,
    returned (getUserDetails_scan n u i arr idx s1)
    = returned (getUserDetails_scan n u i arr idx s2).
Proof.
  intros Hu. induction n as [|n IH]; intros i arr idx; [reflexivity|].
  cbn [getUserDetails_scan]. unfold_M. rewrite Hu.
  destruct (UserProgress.completed _).
  - destruct (idx <? Z.of_nat (length arr)); [|reflexivity].
    destruct (idx + 1 <=? MAX_UINT256); [|reflexivity].
    destruct (i + 1 <=? MAX_UINT256); [|reflexivity].
    apply IH.
  - destruct (i + 1 <=? MAX_UINT256); [|reflexivity].
    apply IH.
Qed.

Lemma getUserDetails_returned e u s :
  returned (getUserDetails e u s) =
  match returned (getUserDetails_scan (Z.to_nat (questCounter s)) u 1
                    (new_array (totalQuestsCompleted s !!! u)) 0 s) with
  | Err f => Err f
  | Ok r =>
      let last := DailyClaim.lastClaimTime (dailyClaims s !!! u) in
      let view := UserDetails.mk r.1 (totalQuestsCompleted s !!! u)
                                 (dailyClaims s !!! u) in
      if last =? 0 then Ok (view true 0)
      else if negb (last <=? block_timestamp e)
      then Err (Panic PANIC_ARITHMETIC)
      else if claimCooldown s <=? block_timestamp e - last
      then Ok (view true 0)
      else if negb (block_timestamp e - last <=? claimCooldown s)
      then Err (Panic PANIC_ARITHMETIC)
      else Ok (view false (claimCooldown s - (block_timestamp e - last)))
  end.
Proof.
  unfold getUserDetails. unfold mbind at 1 2 3, M_bind at 1 2 3, gets at 1 2.
  destruct (getUserDetails_scan _ _ _ _ _ s) as [[r s1]|f] eqn:Hscan;
    [|reflexivity].
  apply scan_view in Hscan. subst s1. unfold_M. cbn [returned].
  cbv zeta.
  destruct (DailyClaim.lastClaimTime (dailyClaims s !!! u) =? 0);
    [reflexivity|].
  destruct (_ <=? block_timestamp e); [|reflexivity]. cbn [negb].
  destruct (claimCooldown s <=? _); [reflexivity|].
  destruct (_ <=? claimCooldown s); reflexivity.
Qed.

Lemma getUserDetails_ext s1 s2 e u :
  questCounter s1 = questCounter s2 ->
  claimCooldown s1 = claimCooldown s2 ->
  userQuests s1 !!! u = userQuests s2 !!! u ->
  totalQuestsCompleted s1 !!! u = totalQuestsCompleted s2 !!! u ->
  dailyClaims s1 !!! u = dailyClaims s2 !!! u ->
  returned (getUserDetails e u s1) = returned (getUserDetails e u s2).
Proof.
  intros Hq Hc Hu Ht Hd.
  rewrite !getUserDetails_returned.
  rewrite (scan_ext s1 s2 u _ Hu), Hq, Hc, Ht, Hd. reflexivity.
Qed.

(** X17.  Recording something for one user leaves every other user's view
    as it was: after a successful [completeQuestForUser] or
    [setDailyClaimed] for user [u], [getUserDetails] for any other user,
    at any block time, returns (or fails) exactly as it did before. *)
Theorem other_users_views_unchanged s e u q s1 u' e' :
  completeQuestForUser e u q s = Ok (tt, s1) \/
  setDailyClaimed e u s = Ok (tt, s1) ->
  u' <> u ->
  returned (getUserDetails e' u' s1) = returned (getUserDetails e' u' s).
Proof.
  intros [H|H] Hne.
  - destruct (completeQuestForUser_post _ _ _ _ _ H)
      as (_ & _ & Hc & Hcd & Hd & Hq & Ht).
    apply getUserDetails_ext; auto.
    + rewrite Hq. apply lookup_total_insert_ne. congruence.
    + rewrite Ht. apply lookup_total_insert_ne. congruence.
    + rewrite Hd. reflexivity.
  - destruct (setDailyClaimed_post _ _ _ _ H)
      as (_ & Hc & Hcd & Hq & Ht & Hd).
    apply getUserDetails_ext; auto.
    + rewrite Hq. reflexivity.
    + rewrite Ht. reflexivity.
    + rewrite Hd. apply lookup_total_insert_ne. congruence.
Qed.

Lemma other_users_views_unchanged_witness :
  returned (getUserDetails (as_stranger 1600) 8 with_completion)
  = returned (getUserDetails (as_stranger 1600) 8 with_quest).
Proof.
  apply (other_users_views_unchanged with_quest (as_backend 1500) alice 1
           with_completion 8 (as_stranger 1600)).
  - left. vm_compute. reflexivity.
  - discriminate.
Defined.

Lemma createQuest_frame e ti d r rq em ed s s1 :
  createQuest e ti d r rq em ed s = Ok (tt, s1) ->
  userQuests s1 = userQuests s /\
  totalQuestsCompleted s1 = totalQuestsCompleted s /\
  dailyClaims s1 = dailyClaims s /\
  claimCooldown s1 = claimCooldown s.
Proof.
  rewrite createQuest_unfold.
  repeat (destruct (negb _); [discriminate|]).
  intros [= <-]. repeat split.
Qed.

Lemma getUserDetails_Inv_spec e u s t :
  Inv s t -> t <= block_timestamp e -> questCounter s < MAX_UINT256 ->
  getUserDetails e u s =
  Ok (UserDetails.mk
        (completedIds s u)
        (totalQuestsCompleted s !!! u)
        (dailyClaims s !!! u)
        (if DailyClaim.lastClaimTime (dailyClaims s !!! u) =? 0 then true
         else claimCooldown s <=?
              block_timestamp e - DailyClaim.lastClaimTime (dailyClaims s !!! u))
        (if DailyClaim.lastClaimTime (dailyClaims s !!! u) =? 0 then 0
         else if claimCooldown s <=?
                 block_timestamp e - DailyClaim.lastClaimTime (dailyClaims s !!! u)
              then 0
              else claimCooldown s -
                   (block_timestamp e
                    - DailyClaim.lastClaimTime (dailyClaims s !!! u))),
      s).
Proof.
  intros HI Hle Hc.
  destruct HI as [Hclk Hcnt Hrange Htot Hclaim Hcd Hcr Hq].
  unfold is_uint256 in *.
  apply getUserDetails_spec.
  - lia.
  - apply Htot.
  - rewrite Htot. pose proof (completedIds_length_le s u). lia.
  - specialize (Hclaim u). lia.
Qed.

(** X18.  Creating a quest changes no user's view: after a successful
    [createQuest] in a reachable state, [getUserDetails] for any user at any
    later block time returns exactly what it would have returned without
    the new quest (the new counter staying below the largest [uint256]). *)
Theorem createQuest_leaves_views_unchanged s t e ti d r rq em ed s1 u e' :
  reachable s t ->
  t <= block_timestamp e -> is_uint256 (block_timestamp e) ->
  createQuest e ti d r rq em ed s = Ok (tt, s1) ->
  questCounter s1 < MAX_UINT256 ->
  block_timestamp e <= block_timestamp e' ->
  returned (getUserDetails e' u s1) = returned (getUserDetails e' u s).
Proof.
  intros Hr Hle Hnow H Hmax Hlater. pose proof (reachable_Inv _ _ Hr) as HI.
  pose proof (Inv_createQuest _ _ _ _ _ _ _ _ _ _ _ HI Hle Hnow H) as HI1.
  destruct (createQuest_post _ _ _ _ _ _ _ _ _ H) as (Hn & _).
  destruct (createQuest_frame _ _ _ _ _ _ _ _ _ H) as (Hq & Ht & Hd & Hc).
  pose proof (inv_counter _ _ HI) as [Hc0 _].
  rewrite (getUserDetails_Inv_spec e' u s1 _ HI1) by lia.
  rewrite (getUserDetails_Inv_spec e' u s t HI) by lia.
  cbn [returned]. rewrite Ht, Hd, Hc. do 2 f_equal.
  unfold completedIds, completedBy. rewrite Hn, Hq, seqZ_snoc by lia.
  rewrite List.filter_app. cbn [List.filter].
  destruct (UserProgress.completed
              ((userQuests s !!! u) !!! (questCounter s + 1))) eqn:Hdone.
  - apply (inv_range _ _ HI) in Hdone. lia.
  - apply app_nil_r.
Qed.

Lemma createQuest_leaves_views_unchanged_witness :
  returned (getUserDetails (as_stranger 6000) alice
              (transact (as_owner 5500)
                 (CreateQuest "Fourth" "" 5 ["z"] 1 9999) busy))
  = returned (getUserDetails (as_stranger 6000) alice busy).
Proof.
  apply (createQuest_leaves_views_unchanged busy 5000 (as_owner 5500)
           "Fourth" "" 5 ["z"] 1 9999 _ alice (as_stranger 6000) busy_reachable).
  - cbn. lia.
  - in_range.
  - vm_compute. reflexivity.
  - vm_compute. reflexivity.
  - cbn. lia.
Defined.

(** X19.  The constructor accepts exactly a non-zero backend wallet, a
    positive daily reward amount and a cooldown of at least one hour.  The
    contract it deploys is owned by the deployer and starts empty:
    [getTotalQuests] is 0, [getAllQuests] is empty, every [getQuest] and
    every [completeQuestForUser] fails with "Quest does not exist", and
    [getUserDetails] gives every user, at any time, the all-default view
    with [canClaimDaily = true]. *)
Theorem fresh_deployment_is_empty e b a cd :
  ((exists s, constructor e b a cd = Ok s) <->
   b <> 0 /\ 0 < a /\ one_hours <= cd) /\
  (forall s, constructor e b a cd = Ok s ->
     owner s = msg_sender e /\ backendWallet s = b /\
     dailyRewardAmount s = a /\ claimCooldown s = cd /\
     getTotalQuests s = Ok (0, s) /\
     getAllQuests s = Ok ([], s) /\
     (forall q, getQuest q s = Err (Revert "Quest does not exist")) /\
     (forall e' u q,
        completeQuestForUser e' u q s = Err (Revert "Quest does not exist")) /\
     (forall e' u,
        getUserDetails e' u s
        = Ok (UserDetails.mk [] 0 (DailyClaim.mk 0 false) true 0, s))).
Proof.
  unfold constructor.
  destruct (b =? 0) eqn:Hb.
  { apply Z.eqb_eq in Hb. split; [|discriminate].
    split; [intros [s H]; discriminate | intros (H & _); contradiction]. }
  apply Z.eqb_neq in Hb.
  destruct (0 <? a) eqn:Ha; cbn [negb].
  2:{ apply Z.ltb_ge in Ha. split; [|discriminate].
      split; [intros [s H]; discriminate | intros (_ & H & _); lia]. }
  apply Z.ltb_lt in Ha.
  destruct (one_hours <=? cd) eqn:Hcd; cbn [negb].
  2:{ apply Z.leb_gt in Hcd. split; [|discriminate].
      split; [intros [s H]; discriminate | intros (_ & _ & H); lia]. }
  apply Z.leb_le in Hcd.
  split; [split; [auto | eauto]|].
  intros s [= <-]. cbn [owner backendWallet dailyRewardAmount claimCooldown].
  do 4 (split; [reflexivity|]).
  split; [reflexivity|]. split; [reflexivity|].
  split; [|split].
  - intros q. rewrite getQuest_unfold. cbn [questCounter].
    replace ((0 <? q) && (q <=? 0)) with false; [reflexivity|].
    symmetry. apply andb_false_iff.
    destruct (Z_le_gt_dec q 0); [left; apply Z.ltb_ge | right; apply Z.leb_gt]; lia.
  - intros e' u q. rewrite completeQuestForUser_unfold. cbn [questCounter].
    replace ((0 <? q) && (q <=? 0)) with false; [reflexivity|].
    symmetry. apply andb_false_iff.
    destruct (Z_le_gt_dec q 0); [left; apply Z.ltb_ge | right; apply Z.leb_gt]; lia.
  - intros e' u. unfold getUserDetails. unfold_M.
    cbn [questCounter totalQuestsCompleted dailyClaims claimCooldown
         Z.to_nat getUserDetails_scan].
    unfold_M. rewrite !lookup_total_empty. reflexivity.
Qed.

Lemma fresh_deployment_is_empty_witness :
  constructor (as_owner 1000) 2 10 3600 = Ok genesis /\
  owner genesis = msg_sender (as_owner 1000) /\
  getAllQuests genesis = Ok ([], genesis) /\
  (forall e' u,
     getUserDetails e' u genesis
     = Ok (UserDetails.mk [] 0 (DailyClaim.mk 0 false) true 0, genesis)).
Proof.
  assert (H : constructor (as_owner 1000) 2 10 3600 = Ok genesis)
    by reflexivity.
  destruct (proj2 (fresh_deployment_is_empty (as_owner 1000) 2 10 3600)
              genesis H) as (Ho & _ & _ & _ & _ & Hall & _ & _ & Hview).
  split; [exact H|]. split; [exact Ho|]. split; [exact Hall | exact Hview].
Defined.

(** X20.  A recorded claim starts the countdown: after a successful
    [setDailyClaimed] for a user at time [t0] in a reachable state (the
    quest counter below the largest [uint256]), [getUserDetails] for that
    user at a time [t >= t0] returns the claim record
    [{lastClaimTime: t0, claimed: true}]; while [t - t0 < claimCooldown] it
    reports [canClaimDaily = false] and
    [timeUntilNextClaim = claimCooldown - (t - t0)], and from
    [t0 + claimCooldown] on it reports [canClaimDaily = true] and
    [timeUntilNextClaim = 0]. *)
Theorem claim_starts_the_countdown s t e u s1 e' :
  reachable s t ->
  t <= block_timestamp e -> is_uint256 (block_timestamp e) ->
  questCounter s < MAX_UINT256 ->
  setDailyClaimed e u s = Ok (tt, s1) ->
  block_timestamp e <= block_timestamp e' ->
  exists d,
    getUserDetails e' u s1 = Ok (d, s1) /\
    UserDetails.dailyClaimInfo d = DailyClaim.mk (block_timestamp e) true /\
    (block_timestamp e' - block_timestamp e < claimCooldown s ->
     UserDetails.canClaimDaily d = false /\
     UserDetails.timeUntilNextClaim d
       = claimCooldown s - (block_timestamp e' - block_timestamp e)) /\
    (claimCooldown s <= block_timestamp e' - block_timestamp e ->
     UserDetails.canClaimDaily d = true /\
     UserDetails.timeUntilNextClaim d = 0).
Proof.
  intros Hr Hle Hnow Hmax H Hlater. pose proof (reachable_Inv _ _ Hr) as HI.
  pose proof (Inv_setDailyClaimed _ _ _ _ _ _ HI Hle Hnow H) as HI1.
  destruct (setDailyClaimed_post _ _ _ _ H) as (Hu & Hc & Hcd & _ & _ & Hd).
  assert (Hpos : block_timestamp e <> 0).
  { rewrite setDailyClaimed_unfold in H.
    destruct (negb _); [discriminate|].
    destruct (u =? 0); [discriminate|].
    destruct (negb _); [discriminate|].
    destruct (_ <=? block_timestamp e) eqn:Hcool; [|discriminate].
    apply Z.leb_le in Hcool.
    pose proof (inv_claim _ _ HI u). pose proof (inv_cooldown _ _ HI).
    unfold one_hours in *. lia. }
  rewrite (getUserDetails_Inv_spec e' u s1 _ HI1) by lia.
  eexists. split; [reflexivity|].
  cbn [UserDetails.dailyClaimInfo UserDetails.canClaimDaily
       UserDetails.timeUntilNextClaim].
  rewrite Hd, lookup_total_insert_eq, Hcd. cbn [DailyClaim.lastClaimTime].
  apply Z.eqb_neq in Hpos. rewrite Hpos.
  split; [reflexivity|]. split.
  - intros Hlt. apply Z.leb_gt in Hlt. rewrite Hlt. auto.
  - intros Hge. apply Z.leb_le in Hge. rewrite Hge. auto.
Qed.

Lemma claim_starts_the_countdown_witness :
  exists d,
    getUserDetails (as_stranger 6800) alice
      (transact (as_backend 5000) (SetDailyClaimed alice) with_quest)
    = Ok (d, transact (as_backend 5000) (SetDailyClaimed alice) with_quest) /\
    UserDetails.canClaimDaily d = false /\
    UserDetails.timeUntilNextClaim d
      = claimCooldown with_quest
        - (block_timestamp (as_stranger 6800) - block_timestamp (as_backend 5000)).
Proof.
  destruct (claim_starts_the_countdown with_quest 1000 (as_backend 5000) alice
              (transact (as_backend 5000) (SetDailyClaimed alice) with_quest)
              (as_stranger 6800) with_quest_reachable)
    as (d & Hd & _ & Hwait & _).
  - cbn. lia.
  - in_range.
  - vm_compute. reflexivity.
  - vm_compute. reflexivity.
  - cbn. lia.
  - exists d. split; [exact Hd|]. apply Hwait. vm_compute. reflexivity.
Defined.
